(** * ULib ORM type-binding layer ([include/ulib/orm/orm.h])

    A shallow embedding of the session wrapper, the statement wrapper and the
    family of [UOrmTypeHandler] specializations, together with the properties
    of the binding layer stated over it.

    The header only declares the per-type primitives of [UOrmStatement]
    ([bindParam(int&)], [bindResult(UString&)], [nextRow()], ...) and the
    session's [loadDriver]; their bodies forward to a driver plug-in.  The
    embedding keeps what the layer can observe of the driver: the ordered
    table of parameter bindings, the ordered table of result bindings and the
    rows still to be fetched.  The tracing macros ([U_TRACE],
    [U_INTERNAL_DUMP], [U_TRACE_CTOR], [U_TRACE_DTOR]) have no effect on the
    statement and are left out. *)

From stdpp Require Import gmap strings list fin_maps.

(** ** Pointers, caller memory *)

(** A [void*]: an address, [U_NULLPTR] being the null address. *)
Definition pointer : Type := Z.
Bind Scope Z_scope with pointer.
Definition U_NULLPTR : pointer := 0%Z.

(** What a column or a bound variable holds. *)
Inductive value : Type :=
| VInt (z : Z)
| VText (s : string)
| VSqlNull.

(** The header of a [UVector] of pointers: the address [vec] of its array of
    element pointers and the number [_length] of slots in use.  Addresses
    count slots: slot [i] of the array is at [vec + i]. *)
Record UVector : Type := mkUVector {
  vec : pointer;
  _length : nat
}.

(** An object of the caller's memory: a variable holding a value, a vector
    header, or a slot of a vector's array. *)
Inductive object : Type :=
| OValue (v : value)
| OVector (v : UVector)
| OPointer (q : pointer).

(** ** The driver statement behind [pstmt] *)

(** The fourteen arithmetic types that have a [bindParam(T&)] and a
    [bindResult(T&)] overload in [UOrmStatement]. *)
Inductive scalar : Type :=
| SBool | SChar | SUChar | SShort | SUShort | SInt | SUInt | SLong | SULong
| SLongLong | SULongLong | SFloat | SDouble | SLongDouble.

(** One call of a parameter-binding primitive of [UOrmStatement], with the
    reference (address) it was given. *)
Inductive param_call : Type :=
| PNull                                  (* bindParam()               *)
| PScalar (t : scalar) (v : pointer)     (* bindParam(T& v)           *)
| PIstream (v : pointer)                 (* bindParam(istream& v)     *)
| PTm (v : pointer)                      (* bindParam(struct tm& v)   *)
| PCString (s : pointer)                 (* bindParam(const char* s)  *)
| PUString (v : pointer)                 (* bindParam(UString& v)     *)
| PUStringRep (v : pointer).             (* bindParam(UStringRep& v)  *)

(** One call of a result-binding primitive of [UOrmStatement]. *)
Inductive result_call : Type :=
| RScalar (t : scalar) (v : pointer)     (* bindResult(T& v)          *)
| RUString (v : pointer).                (* bindResult(UString& v)    *)

(** [USqlStatement]: slot [i] of [params] is the [i]-th positional
    placeholder, slot [i] of [results] the [i]-th result column; [rows] are
    the rows of the result set not fetched yet. *)
Record USqlStatement : Type := mkUSqlStatement {
  params : list param_call;
  results : list result_call;
  rows : list (list value)
}.

(** The part of the process a bind call can touch: the statement and the
    caller's memory. *)
Record world : Type := mkWorld {
  pstmt : USqlStatement;
  mem : gmap Z object
}.

(** ** Calls that may not return normally *)

Inductive failure : Type :=
| AssertionFailed                (* U_INTERNAL_ASSERT_POINTER tripped *)
| UsageError (msg : string)      (* U_ERROR(msg)                      *)
| MemoryFault.                   (* null or out-of-range dereference  *)

Inductive result (A : Type) : Type :=
| Done (a : A)
| Abort (f : failure).
Arguments Done {A} a.
Arguments Abort {A} f.

(** A member function running against a statement: it returns the world it
    leaves behind and either its value or the failure that stopped it. *)
Definition M (A : Type) : Type := world → world * result A.

#[global] Instance M_ret : MRet M := λ A a w, (w, Done a).
#[global] Instance M_bind : MBind M := λ A B f m w,
  match m w with
  | (w', Done a) => f a w'
  | (w', Abort e) => (w', Abort e)
  end.

Definition fail {A : Type} (e : failure) : M A := λ w, (w, Abort e).

(** Modelled from the spec: the macro [U_ERROR(msg)] is defined outside this
    header; the failure it raises is "signaled as a usage error", and the call
    does not return to the adapter. *)
Definition U_ERROR {A : Type} (msg : string) : M A := fail (UsageError msg).

(** ** Primitives of [UOrmStatement] *)

(** Modelled from the spec: the per-type [bindParam] overloads are declared
    in the header and defined outside it; each "forwards v to the
    corresponding driver primitive at the next positional slot". *)
Definition stmt_bindParam (c : param_call) : M unit := λ w,
  (mkWorld (mkUSqlStatement (params (pstmt w) ++ [c])
                            (results (pstmt w))
                            (rows (pstmt w)))
           (mem w),
   Done ()).

(** Modelled from the spec: the per-type [bindResult] overloads, declared in
    the header and defined outside it, register the variable as the target of
    the next result column. *)
Definition stmt_bindResult (c : result_call) : M unit := λ w,
  (mkWorld (mkUSqlStatement (params (pstmt w))
                            (results (pstmt w) ++ [c])
                            (rows (pstmt w)))
           (mem w),
   Done ()).

(** Dereferencing [pval] at its static type: forming the reference the
    primitive receives. *)
Definition deref (p : pointer) : M pointer :=
  if decide (p = U_NULLPTR) then fail MemoryFault else mret p.

(** Reading the vector header [pval] points to. *)
Definition load_vector (p : pointer) : M UVector := λ w,
  match mem w !! p with
  | Some (OVector v) => (w, Done v)
  | _ => (w, Abort MemoryFault)
  end.

(** Reading the array slot [ptr] points to. *)
Definition load_pointer (ptr : pointer) : M pointer := λ w,
  match mem w !! ptr with
  | Some (OPointer q) => (w, Done q)
  | _ => (w, Abort MemoryFault)
  end.

(** The loop [for (; ptr < end; ++ptr)]: [n] is the number of slots from
    [ptr] to [end], [body] runs on the element pointer read from the slot. *)
Fixpoint for_ptr (body : pointer → M unit) (ptr : pointer) (n : nat) : M unit :=
  match n with
  | O => mret ()
  | S n' => q ← load_pointer ptr; body q;; for_ptr body (ptr + 1)%Z n'
  end.

(** ** Type adapters: [UOrmTypeHandler<T>] *)

(** A user class handled by the primary template: its own [bindParam] and
    [bindResult] members, run on the object the adapter points to. *)
Record class_methods : Type := mkClass {
  cls_bindParam : pointer → M unit;
  cls_bindResult : pointer → M unit
}.

(** The template argument [T] of [UOrmTypeHandler<T>]. *)
Inductive ctype : Type :=
| TNull                       (* null                          *)
| TScalar (s : scalar)        (* bool, char, ..., long double  *)
| TCString                    (* const char*                   *)
| TUStringRep                 (* UStringRep                    *)
| TUString                    (* UString                       *)
| TIstream                    (* istream                       *)
| TTm                         (* struct tm                     *)
| TVectorPtr (T : ctype)      (* UVector of pointers to T      *)
| TVectorUString              (* UVector of UString            *)
| TClass (c : class_methods). (* primary template              *)

(** [UOrmTypeHandler_Base] has the single data member [pval]; the adapter
    also carries the type it was instantiated at. *)
Record UOrmTypeHandler : Type := mkHandler {
  handler_type : ctype;
  pval : pointer
}.

(** *** Members of the specializations that need no other adapter *)

(** [UOrmTypeHandler<null>] *)
Definition null_bindParam (p : pointer) : M unit := stmt_bindParam PNull.
Definition null_bindResult (p : pointer) : M unit := mret ().

(** [UOrmTypeHandler<bool>] ... [UOrmTypeHandler<long double>]: fourteen
    specializations with the same two bodies, at their own type. *)
Definition scalar_bindParam (s : scalar) (p : pointer) : M unit :=
  v ← deref p; stmt_bindParam (PScalar s v).
Definition scalar_bindResult (s : scalar) (p : pointer) : M unit :=
  v ← deref p; stmt_bindResult (RScalar s v).

(** [UOrmTypeHandler<const char*>]: [pval] is the string pointer itself. *)
Definition cstring_bindParam (p : pointer) : M unit := stmt_bindParam (PCString p).
Definition cstring_bindResult (p : pointer) : M unit := mret ().

(** [UOrmTypeHandler<UStringRep>] *)
Definition UStringRep_bindParam (p : pointer) : M unit :=
  v ← deref p; stmt_bindParam (PUStringRep v).
Definition UStringRep_bindResult (p : pointer) : M unit :=
  U_ERROR "UOrmTypeHandler<UStringRep>::bindResult(): sorry, we cannot use UStringRep type to bind ORM type handler...".

(** [UOrmTypeHandler<UString>] *)
Definition UString_bindParam (p : pointer) : M unit :=
  v ← deref p; stmt_bindParam (PUString v).
Definition UString_bindResult (p : pointer) : M unit :=
  v ← deref p; stmt_bindResult (RUString v).

(** [UOrmTypeHandler<istream>] *)
Definition istream_bindParam (p : pointer) : M unit :=
  v ← deref p; stmt_bindParam (PIstream v).
Definition istream_bindResult (p : pointer) : M unit := mret ().

(** [UOrmTypeHandler<struct tm>] *)
Definition tm_bindParam (p : pointer) : M unit :=
  v ← deref p; stmt_bindParam (PTm v).
Definition tm_bindResult (p : pointer) : M unit := mret ().

(** [UOrmTypeHandler<UVector<UString>>::bindResult] *)
Definition UVectorUString_bindResult (p : pointer) : M unit :=
  U_ERROR "UOrmTypeHandler<UVector<UString>>::bindResult(): sorry, we cannot use UVector<UString> type to bind ORM type handler...".

(** The body shared by [bindParam] and [bindResult] of the vector
    specialization: walk [vec .. vec + _length] and run [elem] on the element
    pointer each slot holds.  The loop itself checks nothing about that
    pointer. *)
Definition uvector_each (elem : pointer → M unit) (p : pointer) : M unit :=
  pvec ← load_vector p;
  for_ptr elem (vec pvec) (_length pvec).

(** What the constructor of the element adapter receives for the element
    [q] points to.  The constructors taking a reference receive the object
    itself, that is its address [q]; the constructor of the adapter for
    [const char*] takes its argument by value, so the string pointer stored
    in the element is read and passed. *)
Definition element_val (T : ctype) (q : pointer) : M pointer :=
  match T with
  | TCString => load_pointer q
  | TNull | TScalar _ | TUStringRep | TUString | TIstream | TTm
  | TVectorPtr _ | TVectorUString | TClass _ => mret q
  end.

Section TypeHandlers.

(** The assertion macro is defined outside this header; it is a parameter of
    everything that constructs an adapter. *)
Variable assert_pointer : pointer → bool.

(** Constructor of [UOrmTypeHandler_Base]: store, then assert. *)
Definition UOrmTypeHandler_Base (T : ctype) (ptr : pointer) : M UOrmTypeHandler :=
  if assert_pointer ptr then mret (mkHandler T ptr)
  else fail AssertionFailed.

(** Destructor of [UOrmTypeHandler_Base]: the same assertion. *)
Definition UOrmTypeHandler_Base_dtor (t : UOrmTypeHandler) : M unit :=
  if assert_pointer (pval t) then mret () else fail AssertionFailed.

(** The constructors of the specializations.  [val] is the address of the
    variable for the reference constructors and the pointer passed for
    [const char*] and for the pointer constructor of the primary template. *)
Definition UOrmTypeHandler_ctor (T : ctype) (val : pointer) : M UOrmTypeHandler :=
  match T with
  | TNull => UOrmTypeHandler_Base T U_NULLPTR
  | TCString => UOrmTypeHandler_Base T val
  | TScalar _ | TUStringRep | TUString | TIstream | TTm
  | TVectorPtr _ | TVectorUString | TClass _ => UOrmTypeHandler_Base T val
  end.

(** A temporary adapter living for one full expression:
    construct, use, destroy. *)
Definition with_temp (T : ctype) (val : pointer)
    (body : UOrmTypeHandler → M unit) : M unit :=
  t ← UOrmTypeHandler_ctor T val; body t;; UOrmTypeHandler_Base_dtor t.

(** [UOrmTypeHandler<T>::bindParam], selected by [T]. *)
Fixpoint bindParam_at (T : ctype) (p : pointer) {struct T} : M unit :=
  match T with
  | TNull => null_bindParam p
  | TScalar s => scalar_bindParam s p
  | TCString => cstring_bindParam p
  | TUStringRep => UStringRep_bindParam p
  | TUString => UString_bindParam p
  | TIstream => istream_bindParam p
  | TTm => tm_bindParam p
  | TVectorPtr T' =>
      uvector_each
        (λ q, val ← element_val T' q;
              with_temp T' val (λ t, bindParam_at T' (pval t))) p
  | TVectorUString =>
      uvector_each
        (λ q, with_temp TUStringRep q (λ t, UStringRep_bindParam (pval t))) p
  | TClass c => cls_bindParam c p
  end.

(** [UOrmTypeHandler<T>::bindResult], selected by [T]. *)
Fixpoint bindResult_at (T : ctype) (p : pointer) {struct T} : M unit :=
  match T with
  | TNull => null_bindResult p
  | TScalar s => scalar_bindResult s p
  | TCString => cstring_bindResult p
  | TUStringRep => UStringRep_bindResult p
  | TUString => UString_bindResult p
  | TIstream => istream_bindResult p
  | TTm => tm_bindResult p
  | TVectorPtr T' =>
      uvector_each
        (λ q, val ← element_val T' q;
              with_temp T' val (λ t, bindResult_at T' (pval t))) p
  | TVectorUString => UVectorUString_bindResult p
  | TClass c => cls_bindResult c p
  end.

Definition UOrmTypeHandler_bindParam (t : UOrmTypeHandler) : M unit :=
  bindParam_at (handler_type t) (pval t).
Definition UOrmTypeHandler_bindResult (t : UOrmTypeHandler) : M unit :=
  bindResult_at (handler_type t) (pval t).

(** The member templates [UOrmStatement::bindParam(UOrmTypeHandler<T>)] and
    [UOrmStatement::bindResult(UOrmTypeHandler<T>)]. *)
Definition bindParam (t : UOrmTypeHandler) : M unit := UOrmTypeHandler_bindParam t.
Definition bindResult (t : UOrmTypeHandler) : M unit := UOrmTypeHandler_bindResult t.

(** The value category of the expression passed at a call. *)
Inductive category : Type :=
| Lvalue
| Rvalue.

(** An argument of [use] or [into]: the value category of the expression
    passed, its type and what the adapter's constructor receives for it. *)
Record argument : Type := mkArg {
  arg_category : category;
  arg_type : ctype;
  arg_ref : pointer
}.

Definition is_lvalue (r : argument) : bool :=
  match arg_category r with
  | Lvalue => true
  | Rvalue => false
  end.

Definition is_rvalue (r : argument) : bool :=
  match arg_category r with
  | Lvalue => false
  | Rvalue => true
  end.

(** The statements [bindParam(UOrmTypeHandler<T>(r));] and
    [bindResult(UOrmTypeHandler<T>(r));]. *)
Definition bindParam_of (r : argument) : M unit :=
  with_temp (arg_type r) (arg_ref r) bindParam.
Definition bindResult_of (r : argument) : M unit :=
  with_temp (arg_type r) (arg_ref r) bindResult.

(** *** [use]: syntactic sugar for [bindParam]

    Without [HAVE_CXX17] the header defines twenty overloads, one per number
    of arguments; the body of the overload with [n] arguments is the [n]
    statements [bindParam(UOrmTypeHandler<Ti>(ri));] in order. *)

Definition use1 (r1 : argument) : M unit :=
  bindParam_of r1.

Definition use2 (r1 r2 : argument) : M unit :=
  bindParam_of r1;;
  bindParam_of r2.

Definition use3 (r1 r2 r3 : argument) : M unit :=
  bindParam_of r1;;
  bindParam_of r2;;
  bindParam_of r3.

Definition use4 (r1 r2 r3 r4 : argument) : M unit :=
  bindParam_of r1;;
  bindParam_of r2;;
  bindParam_of r3;;
  bindParam_of r4.

Definition use5 (r1 r2 r3 r4 r5 : argument) : M unit :=
  bindParam_of r1;;
  bindParam_of r2;;
  bindParam_of r3;;
  bindParam_of r4;;
  bindParam_of r5.

Definition use6 (r1 r2 r3 r4 r5 r6 : argument) : M unit :=
  bindParam_of r1;;
  bindParam_of r2;;
  bindParam_of r3;;
  bindParam_of r4;;
  bindParam_of r5;;
  bindParam_of r6.

Definition use7 (r1 r2 r3 r4 r5 r6 r7 : argument) : M unit :=
  bindParam_of r1;;
  bindParam_of r2;;
  bindParam_of r3;;
  bindParam_of r4;;
  bindParam_of r5;;
  bindParam_of r6;;
  bindParam_of r7.

Definition use8 (r1 r2 r3 r4 r5 r6 r7 r8 : argument) : M unit :=
  bindParam_of r1;;
  bindParam_of r2;;
  bindParam_of r3;;
  bindParam_of r4;;
  bindParam_of r5;;
  bindParam_of r6;;
  bindParam_of r7;;
  bindParam_of r8.

Definition use9 (r1 r2 r3 r4 r5 r6 r7 r8 r9 : argument) : M unit :=
  bindParam_of r1;;
  bindParam_of r2;;
  bindParam_of r3;;
  bindParam_of r4;;
  bindParam_of r5;;
  bindParam_of r6;;
  bindParam_of r7;;
  bindParam_of r8;;
  bindParam_of r9.

Definition use10 (r1 r2 r3 r4 r5 r6 r7 r8 r9 r10 : argument) : M unit :=
  bindParam_of r1;;
  bindParam_of r2;;
  bindParam_of r3;;
  bindParam_of r4;;
  bindParam_of r5;;
  bindParam_of r6;;
  bindParam_of r7;;
  bindParam_of r8;;
  bindParam_of r9;;
  bindParam_of r10.

Definition use11 (r1 r2 r3 r4 r5 r6 r7 r8 r9 r10 r11 : argument) : M unit :=
  bindParam_of r1;;
  bindParam_of r2;;
  bindParam_of r3;;
  bindParam_of r4;;
  bindParam_of r5;;
  bindParam_of r6;;
  bindParam_of r7;;
  bindParam_of r8;;
  bindParam_of r9;;
  bindParam_of r10;;
  bindParam_of r11.

Definition use12 (r1 r2 r3 r4 r5 r6 r7 r8 r9 r10 r11 r12 : argument) : M unit :=
  bindParam_of r1;;
  bindParam_of r2;;
  bindParam_of r3;;
  bindParam_of r4;;
  bindParam_of r5;;
  bindParam_of r6;;
  bindParam_of r7;;
  bindParam_of r8;;
  bindParam_of r9;;
  bindParam_of r10;;
  bindParam_of r11;;
  bindParam_of r12.

Definition use13 (r1 r2 r3 r4 r5 r6 r7 r8 r9 r10 r11 r12 r13 : argument) : M unit :=
  bindParam_of r1;;
  bindParam_of r2;;
  bindParam_of r3;;
  bindParam_of r4;;
  bindParam_of r5;;
  bindParam_of r6;;
  bindParam_of r7;;
  bindParam_of r8;;
  bindParam_of r9;;
  bindParam_of r10;;
  bindParam_of r11;;
  bindParam_of r12;;
  bindParam_of r13.

Definition use14 (r1 r2 r3 r4 r5 r6 r7 r8 r9 r10 r11 r12 r13 r14 : argument) : M unit :=
  bindParam_of r1;;
  bindParam_of r2;;
  bindParam_of r3;;
  bindParam_of r4;;
  bindParam_of r5;;
  bindParam_of r6;;
  bindParam_of r7;;
  bindParam_of r8;;
  bindParam_of r9;;
  bindParam_of r10;;
  bindParam_of r11;;
  bindParam_of r12;;
  bindParam_of r13;;
  bindParam_of r14.

Definition use15 (r1 r2 r3 r4 r5 r6 r7 r8 r9 r10 r11 r12 r13 r14 r15 : argument) : M unit :=
  bindParam_of r1;;
  bindParam_of r2;;
  bindParam_of r3;;
  bindParam_of r4;;
  bindParam_of r5;;
  bindParam_of r6;;
  bindParam_of r7;;
  bindParam_of r8;;
  bindParam_of r9;;
  bindParam_of r10;;
  bindParam_of r11;;
  bindParam_of r12;;
  bindParam_of r13;;
  bindParam_of r14;;
  bindParam_of r15.

Definition use16 (r1 r2 r3 r4 r5 r6 r7 r8 r9 r10 r11 r12 r13 r14 r15 r16 : argument) : M unit :=
  bindParam_of r1;;
  bindParam_of r2;;
  bindParam_of r3;;
  bindParam_of r4;;
  bindParam_of r5;;
  bindParam_of r6;;
  bindParam_of r7;;
  bindParam_of r8;;
  bindParam_of r9;;
  bindParam_of r10;;
  bindParam_of r11;;
  bindParam_of r12;;
  bindParam_of r13;;
  bindParam_of r14;;
  bindParam_of r15;;
  bindParam_of r16.

Definition use17 (r1 r2 r3 r4 r5 r6 r7 r8 r9 r10 r11 r12 r13 r14 r15 r16 r17 : argument) : M unit :=
  bindParam_of r1;;
  bindParam_of r2;;
  bindParam_of r3;;
  bindParam_of r4;;
  bindParam_of r5;;
  bindParam_of r6;;
  bindParam_of r7;;
  bindParam_of r8;;
  bindParam_of r9;;
  bindParam_of r10;;
  bindParam_of r11;;
  bindParam_of r12;;
  bindParam_of r13;;
  bindParam_of r14;;
  bindParam_of r15;;
  bindParam_of r16;;
  bindParam_of r17.

Definition use18 (r1 r2 r3 r4 r5 r6 r7 r8 r9 r10 r11 r12 r13 r14 r15 r16 r17 r18 : argument) : M unit :=
  bindParam_of r1;;
  bindParam_of r2;;
  bindParam_of r3;;
  bindParam_of r4;;
  bindParam_of r5;;
  bindParam_of r6;;
  bindParam_of r7;;
  bindParam_of r8;;
  bindParam_of r9;;
  bindParam_of r10;;
  bindParam_of r11;;
  bindParam_of r12;;
  bindParam_of r13;;
  bindParam_of r14;;
  bindParam_of r15;;
  bindParam_of r16;;
  bindParam_of r17;;
  bindParam_of r18.

Definition use19 (r1 r2 r3 r4 r5 r6 r7 r8 r9 r10 r11 r12 r13 r14 r15 r16 r17 r18 r19 : argument) : M unit :=
  bindParam_of r1;;
  bindParam_of r2;;
  bindParam_of r3;;
  bindParam_of r4;;
  bindParam_of r5;;
  bindParam_of r6;;
  bindParam_of r7;;
  bindParam_of r8;;
  bindParam_of r9;;
  bindParam_of r10;;
  bindParam_of r11;;
  bindParam_of r12;;
  bindParam_of r13;;
  bindParam_of r14;;
  bindParam_of r15;;
  bindParam_of r16;;
  bindParam_of r17;;
  bindParam_of r18;;
  bindParam_of r19.

Definition use20 (r1 r2 r3 r4 r5 r6 r7 r8 r9 r10 r11 r12 r13 r14 r15 r16 r17 r18 r19 r20 : argument) : M unit :=
  bindParam_of r1;;
  bindParam_of r2;;
  bindParam_of r3;;
  bindParam_of r4;;
  bindParam_of r5;;
  bindParam_of r6;;
  bindParam_of r7;;
  bindParam_of r8;;
  bindParam_of r9;;
  bindParam_of r10;;
  bindParam_of r11;;
  bindParam_of r12;;
  bindParam_of r13;;
  bindParam_of r14;;
  bindParam_of r15;;
  bindParam_of r16;;
  bindParam_of r17;;
  bindParam_of r18;;
  bindParam_of r19;;
  bindParam_of r20.


(** Overload resolution by the number of arguments; no overload takes none
    or more than twenty. *)
Definition use_overload (rs : list argument) : option (M unit) :=
  match rs with
  | [r1] => Some (use1 r1)
  | [r1; r2] => Some (use2 r1 r2)
  | [r1; r2; r3] => Some (use3 r1 r2 r3)
  | [r1; r2; r3; r4] => Some (use4 r1 r2 r3 r4)
  | [r1; r2; r3; r4; r5] => Some (use5 r1 r2 r3 r4 r5)
  | [r1; r2; r3; r4; r5; r6] => Some (use6 r1 r2 r3 r4 r5 r6)
  | [r1; r2; r3; r4; r5; r6; r7] => Some (use7 r1 r2 r3 r4 r5 r6 r7)
  | [r1; r2; r3; r4; r5; r6; r7; r8] => Some (use8 r1 r2 r3 r4 r5 r6 r7 r8)
  | [r1; r2; r3; r4; r5; r6; r7; r8; r9] => Some (use9 r1 r2 r3 r4 r5 r6 r7 r8 r9)
  | [r1; r2; r3; r4; r5; r6; r7; r8; r9; r10] => Some (use10 r1 r2 r3 r4 r5 r6 r7 r8 r9 r10)
  | [r1; r2; r3; r4; r5; r6; r7; r8; r9; r10; r11] => Some (use11 r1 r2 r3 r4 r5 r6 r7 r8 r9 r10 r11)
  | [r1; r2; r3; r4; r5; r6; r7; r8; r9; r10; r11; r12] => Some (use12 r1 r2 r3 r4 r5 r6 r7 r8 r9 r10 r11 r12)
  | [r1; r2; r3; r4; r5; r6; r7; r8; r9; r10; r11; r12; r13] => Some (use13 r1 r2 r3 r4 r5 r6 r7 r8 r9 r10 r11 r12 r13)
  | [r1; r2; r3; r4; r5; r6; r7; r8; r9; r10; r11; r12; r13; r14] => Some (use14 r1 r2 r3 r4 r5 r6 r7 r8 r9 r10 r11 r12 r13 r14)
  | [r1; r2; r3; r4; r5; r6; r7; r8; r9; r10; r11; r12; r13; r14; r15] => Some (use15 r1 r2 r3 r4 r5 r6 r7 r8 r9 r10 r11 r12 r13 r14 r15)
  | [r1; r2; r3; r4; r5; r6; r7; r8; r9; r10; r11; r12; r13; r14; r15; r16] => Some (use16 r1 r2 r3 r4 r5 r6 r7 r8 r9 r10 r11 r12 r13 r14 r15 r16)
  | [r1; r2; r3; r4; r5; r6; r7; r8; r9; r10; r11; r12; r13; r14; r15; r16; r17] => Some (use17 r1 r2 r3 r4 r5 r6 r7 r8 r9 r10 r11 r12 r13 r14 r15 r16 r17)
  | [r1; r2; r3; r4; r5; r6; r7; r8; r9; r10; r11; r12; r13; r14; r15; r16; r17; r18] => Some (use18 r1 r2 r3 r4 r5 r6 r7 r8 r9 r10 r11 r12 r13 r14 r15 r16 r17 r18)
  | [r1; r2; r3; r4; r5; r6; r7; r8; r9; r10; r11; r12; r13; r14; r15; r16; r17; r18; r19] => Some (use19 r1 r2 r3 r4 r5 r6 r7 r8 r9 r10 r11 r12 r13 r14 r15 r16 r17 r18 r19)
  | [r1; r2; r3; r4; r5; r6; r7; r8; r9; r10; r11; r12; r13; r14; r15; r16; r17; r18; r19; r20] => Some (use20 r1 r2 r3 r4 r5 r6 r7 r8 r9 r10 r11 r12 r13 r14 r15 r16 r17 r18 r19 r20)
  | _ => None
  end.

(** With [HAVE_CXX17] there is one variadic template whose body is a fold
    expression over the comma operator: [(e1 , (e2 , ... , en))], evaluated
    left to right; over an empty pack it is [void()]. *)
Fixpoint comma_fold (es : list (M unit)) : M unit :=
  match es with
  | [] => mret ()
  | [e] => e
  | e :: es' => e;; comma_fold es'
  end.

Definition use_fold (ts : list argument) : M unit :=
  comma_fold (map bindParam_of ts).

(** [UOrmStatement::use] in either build: [None] when the call is not
    accepted.  The overloads take [T1& r1, ...]: deduction succeeds for
    lvalues only, an rvalue does not bind to [T&].  The variadic template
    takes [Ts&&... ts] and names [UOrmTypeHandler<Ts>]: for an rvalue of type
    [T] the pack element is [T]; for an lvalue it is a reference type, at
    which the adapter template is ill-formed. *)
Definition use (HAVE_CXX17 : bool) (rs : list argument) : option (M unit) :=
  if HAVE_CXX17 then
    if forallb is_rvalue rs then Some (use_fold rs) else None
  else
    if forallb is_lvalue rs then use_overload rs else None.

(** *** [into]: syntactic sugar for [bindResult] *)

Definition into1 (r1 : argument) : M unit :=
  bindResult_of r1.

Definition into2 (r1 r2 : argument) : M unit :=
  bindResult_of r1;;
  bindResult_of r2.

Definition into3 (r1 r2 r3 : argument) : M unit :=
  bindResult_of r1;;
  bindResult_of r2;;
  bindResult_of r3.

Definition into4 (r1 r2 r3 r4 : argument) : M unit :=
  bindResult_of r1;;
  bindResult_of r2;;
  bindResult_of r3;;
  bindResult_of r4.

Definition into5 (r1 r2 r3 r4 r5 : argument) : M unit :=
  bindResult_of r1;;
  bindResult_of r2;;
  bindResult_of r3;;
  bindResult_of r4;;
  bindResult_of r5.

Definition into6 (r1 r2 r3 r4 r5 r6 : argument) : M unit :=
  bindResult_of r1;;
  bindResult_of r2;;
  bindResult_of r3;;
  bindResult_of r4;;
  bindResult_of r5;;
  bindResult_of r6.

Definition into7 (r1 r2 r3 r4 r5 r6 r7 : argument) : M unit :=
  bindResult_of r1;;
  bindResult_of r2;;
  bindResult_of r3;;
  bindResult_of r4;;
  bindResult_of r5;;
  bindResult_of r6;;
  bindResult_of r7.

Definition into8 (r1 r2 r3 r4 r5 r6 r7 r8 : argument) : M unit :=
  bindResult_of r1;;
  bindResult_of r2;;
  bindResult_of r3;;
  bindResult_of r4;;
  bindResult_of r5;;
  bindResult_of r6;;
  bindResult_of r7;;
  bindResult_of r8.

Definition into9 (r1 r2 r3 r4 r5 r6 r7 r8 r9 : argument) : M unit :=
  bindResult_of r1;;
  bindResult_of r2;;
  bindResult_of r3;;
  bindResult_of r4;;
  bindResult_of r5;;
  bindResult_of r6;;
  bindResult_of r7;;
  bindResult_of r8;;
  bindResult_of r9.

Definition into10 (r1 r2 r3 r4 r5 r6 r7 r8 r9 r10 : argument) : M unit :=
  bindResult_of r1;;
  bindResult_of r2;;
  bindResult_of r3;;
  bindResult_of r4;;
  bindResult_of r5;;
  bindResult_of r6;;
  bindResult_of r7;;
  bindResult_of r8;;
  bindResult_of r9;;
  bindResult_of r10.

Definition into11 (r1 r2 r3 r4 r5 r6 r7 r8 r9 r10 r11 : argument) : M unit :=
  bindResult_of r1;;
  bindResult_of r2;;
  bindResult_of r3;;
  bindResult_of r4;;
  bindResult_of r5;;
  bindResult_of r6;;
  bindResult_of r7;;
  bindResult_of r8;;
  bindResult_of r9;;
  bindResult_of r10;;
  bindResult_of r11.

Definition into12 (r1 r2 r3 r4 r5 r6 r7 r8 r9 r10 r11 r12 : argument) : M unit :=
  bindResult_of r1;;
  bindResult_of r2;;
  bindResult_of r3;;
  bindResult_of r4;;
  bindResult_of r5;;
  bindResult_of r6;;
  bindResult_of r7;;
  bindResult_of r8;;
  bindResult_of r9;;
  bindResult_of r10;;
  bindResult_of r11;;
  bindResult_of r12.

Definition into13 (r1 r2 r3 r4 r5 r6 r7 r8 r9 r10 r11 r12 r13 : argument) : M unit :=
  bindResult_of r1;;
  bindResult_of r2;;
  bindResult_of r3;;
  bindResult_of r4;;
  bindResult_of r5;;
  bindResult_of r6;;
  bindResult_of r7;;
  bindResult_of r8;;
  bindResult_of r9;;
  bindResult_of r10;;
  bindResult_of r11;;
  bindResult_of r12;;
  bindResult_of r13.

Definition into14 (r1 r2 r3 r4 r5 r6 r7 r8 r9 r10 r11 r12 r13 r14 : argument) : M unit :=
  bindResult_of r1;;
  bindResult_of r2;;
  bindResult_of r3;;
  bindResult_of r4;;
  bindResult_of r5;;
  bindResult_of r6;;
  bindResult_of r7;;
  bindResult_of r8;;
  bindResult_of r9;;
  bindResult_of r10;;
  bindResult_of r11;;
  bindResult_of r12;;
  bindResult_of r13;;
  bindResult_of r14.

Definition into15 (r1 r2 r3 r4 r5 r6 r7 r8 r9 r10 r11 r12 r13 r14 r15 : argument) : M unit :=
  bindResult_of r1;;
  bindResult_of r2;;
  bindResult_of r3;;
  bindResult_of r4;;
  bindResult_of r5;;
  bindResult_of r6;;
  bindResult_of r7;;
  bindResult_of r8;;
  bindResult_of r9;;
  bindResult_of r10;;
  bindResult_of r11;;
  bindResult_of r12;;
  bindResult_of r13;;
  bindResult_of r14;;
  bindResult_of r15.

Definition into16 (r1 r2 r3 r4 r5 r6 r7 r8 r9 r10 r11 r12 r13 r14 r15 r16 : argument) : M unit :=
  bindResult_of r1;;
  bindResult_of r2;;
  bindResult_of r3;;
  bindResult_of r4;;
  bindResult_of r5;;
  bindResult_of r6;;
  bindResult_of r7;;
  bindResult_of r8;;
  bindResult_of r9;;
  bindResult_of r10;;
  bindResult_of r11;;
  bindResult_of r12;;
  bindResult_of r13;;
  bindResult_of r14;;
  bindResult_of r15;;
  bindResult_of r16.

Definition into17 (r1 r2 r3 r4 r5 r6 r7 r8 r9 r10 r11 r12 r13 r14 r15 r16 r17 : argument) : M unit :=
  bindResult_of r1;;
  bindResult_of r2;;
  bindResult_of r3;;
  bindResult_of r4;;
  bindResult_of r5;;
  bindResult_of r6;;
  bindResult_of r7;;
  bindResult_of r8;;
  bindResult_of r9;;
  bindResult_of r10;;
  bindResult_of r11;;
  bindResult_of r12;;
  bindResult_of r13;;
  bindResult_of r14;;
  bindResult_of r15;;
  bindResult_of r16;;
  bindResult_of r17.

Definition into18 (r1 r2 r3 r4 r5 r6 r7 r8 r9 r10 r11 r12 r13 r14 r15 r16 r17 r18 : argument) : M unit :=
  bindResult_of r1;;
  bindResult_of r2;;
  bindResult_of r3;;
  bindResult_of r4;;
  bindResult_of r5;;
  bindResult_of r6;;
  bindResult_of r7;;
  bindResult_of r8;;
  bindResult_of r9;;
  bindResult_of r10;;
  bindResult_of r11;;
  bindResult_of r12;;
  bindResult_of r13;;
  bindResult_of r14;;
  bindResult_of r15;;
  bindResult_of r16;;
  bindResult_of r17;;
  bindResult_of r18.

Definition into19 (r1 r2 r3 r4 r5 r6 r7 r8 r9 r10 r11 r12 r13 r14 r15 r16 r17 r18 r19 : argument) : M unit :=
  bindResult_of r1;;
  bindResult_of r2;;
  bindResult_of r3;;
  bindResult_of r4;;
  bindResult_of r5;;
  bindResult_of r6;;
  bindResult_of r7;;
  bindResult_of r8;;
  bindResult_of r9;;
  bindResult_of r10;;
  bindResult_of r11;;
  bindResult_of r12;;
  bindResult_of r13;;
  bindResult_of r14;;
  bindResult_of r15;;
  bindResult_of r16;;
  bindResult_of r17;;
  bindResult_of r18;;
  bindResult_of r19.

Definition into20 (r1 r2 r3 r4 r5 r6 r7 r8 r9 r10 r11 r12 r13 r14 r15 r16 r17 r18 r19 r20 : argument) : M unit :=
  bindResult_of r1;;
  bindResult_of r2;;
  bindResult_of r3;;
  bindResult_of r4;;
  bindResult_of r5;;
  bindResult_of r6;;
  bindResult_of r7;;
  bindResult_of r8;;
  bindResult_of r9;;
  bindResult_of r10;;
  bindResult_of r11;;
  bindResult_of r12;;
  bindResult_of r13;;
  bindResult_of r14;;
  bindResult_of r15;;
  bindResult_of r16;;
  bindResult_of r17;;
  bindResult_of r18;;
  bindResult_of r19;;
  bindResult_of r20.


(** Overload resolution by the number of arguments; no overload takes none
    or more than twenty. *)
Definition into_overload (rs : list argument) : option (M unit) :=
  match rs with
  | [r1] => Some (into1 r1)
  | [r1; r2] => Some (into2 r1 r2)
  | [r1; r2; r3] => Some (into3 r1 r2 r3)
  | [r1; r2; r3; r4] => Some (into4 r1 r2 r3 r4)
  | [r1; r2; r3; r4; r5] => Some (into5 r1 r2 r3 r4 r5)
  | [r1; r2; r3; r4; r5; r6] => Some (into6 r1 r2 r3 r4 r5 r6)
  | [r1; r2; r3; r4; r5; r6; r7] => Some (into7 r1 r2 r3 r4 r5 r6 r7)
  | [r1; r2; r3; r4; r5; r6; r7; r8] => Some (into8 r1 r2 r3 r4 r5 r6 r7 r8)
  | [r1; r2; r3; r4; r5; r6; r7; r8; r9] => Some (into9 r1 r2 r3 r4 r5 r6 r7 r8 r9)
  | [r1; r2; r3; r4; r5; r6; r7; r8; r9; r10] => Some (into10 r1 r2 r3 r4 r5 r6 r7 r8 r9 r10)
  | [r1; r2; r3; r4; r5; r6; r7; r8; r9; r10; r11] => Some (into11 r1 r2 r3 r4 r5 r6 r7 r8 r9 r10 r11)
  | [r1; r2; r3; r4; r5; r6; r7; r8; r9; r10; r11; r12] => Some (into12 r1 r2 r3 r4 r5 r6 r7 r8 r9 r10 r11 r12)
  | [r1; r2; r3; r4; r5; r6; r7; r8; r9; r10; r11; r12; r13] => Some (into13 r1 r2 r3 r4 r5 r6 r7 r8 r9 r10 r11 r12 r13)
  | [r1; r2; r3; r4; r5; r6; r7; r8; r9; r10; r11; r12; r13; r14] => Some (into14 r1 r2 r3 r4 r5 r6 r7 r8 r9 r10 r11 r12 r13 r14)
  | [r1; r2; r3; r4; r5; r6; r7; r8; r9; r10; r11; r12; r13; r14; r15] => Some (into15 r1 r2 r3 r4 r5 r6 r7 r8 r9 r10 r11 r12 r13 r14 r15)
  | [r1; r2; r3; r4; r5; r6; r7; r8; r9; r10; r11; r12; r13; r14; r15; r16] => Some (into16 r1 r2 r3 r4 r5 r6 r7 r8 r9 r10 r11 r12 r13 r14 r15 r16)
  | [r1; r2; r3; r4; r5; r6; r7; r8; r9; r10; r11; r12; r13; r14; r15; r16; r17] => Some (into17 r1 r2 r3 r4 r5 r6 r7 r8 r9 r10 r11 r12 r13 r14 r15 r16 r17)
  | [r1; r2; r3; r4; r5; r6; r7; r8; r9; r10; r11; r12; r13; r14; r15; r16; r17; r18] => Some (into18 r1 r2 r3 r4 r5 r6 r7 r8 r9 r10 r11 r12 r13 r14 r15 r16 r17 r18)
  | [r1; r2; r3; r4; r5; r6; r7; r8; r9; r10; r11; r12; r13; r14; r15; r16; r17; r18; r19] => Some (into19 r1 r2 r3 r4 r5 r6 r7 r8 r9 r10 r11 r12 r13 r14 r15 r16 r17 r18 r19)
  | [r1; r2; r3; r4; r5; r6; r7; r8; r9; r10; r11; r12; r13; r14; r15; r16; r17; r18; r19; r20] => Some (into20 r1 r2 r3 r4 r5 r6 r7 r8 r9 r10 r11 r12 r13 r14 r15 r16 r17 r18 r19 r20)
  | _ => None
  end.

Definition into_fold (ts : list argument) : M unit :=
  comma_fold (map bindResult_of ts).

(** [UOrmStatement::into] in either build, accepted as [use] is. *)
Definition into (HAVE_CXX17 : bool) (rs : list argument) : option (M unit) :=
  if HAVE_CXX17 then
    if forallb is_rvalue rs then Some (into_fold rs) else None
  else
    if forallb is_lvalue rs then into_overload rs else None.

End TypeHandlers.

(** Modelled from the spec: [U_INTERNAL_ASSERT_POINTER] is defined outside
    this header; "the wrapped pointer is asserted non-null". *)
Definition U_INTERNAL_ASSERT_POINTER (ptr : pointer) : bool :=
  bool_decide (ptr ≠ U_NULLPTR).

(** *** Binding by hand

    The reading of "calling [bindParam(UOrmTypeHandler<Ti>(ai))] manually once
    per argument in order": one statement per argument, first to last. *)
Fixpoint manual_bindParam (assert_pointer : pointer → bool)
    (rs : list argument) : M unit :=
  match rs with
  | [] => mret ()
  | r :: rs' => bindParam_of assert_pointer r;; manual_bindParam assert_pointer rs'
  end.

Fixpoint manual_bindResult (assert_pointer : pointer → bool)
    (rs : list argument) : M unit :=
  match rs with
  | [] => mret ()
  | r :: rs' => bindResult_of assert_pointer r;; manual_bindResult assert_pointer rs'
  end.

(** The element pointers held by the [n] slots from [ptr] on, first to last;
    [None] when one of the slots is not there. *)
Fixpoint read_slots (m : gmap Z object) (ptr : pointer) (n : nat)
    : option (list pointer) :=
  match n with
  | O => Some []
  | S n' =>
      match m !! ptr with
      | Some (OPointer q) => (q ::.) <$> read_slots m (ptr + 1)%Z n'
      | _ => None
      end
  end.

(** The vector at [p] has the elements [qs], first to last. *)
Definition vector_at (m : gmap Z object) (p : pointer) (qs : list pointer) : Prop :=
  ∃ v, m !! p = Some (OVector v) ∧ read_slots m (vec v) (_length v) = Some qs.

(** The element [q] points to, as the argument of a statement binding it by
    hand through [UOrmTypeHandler<T>]: the object at [q], or for
    [const char*] the string pointer stored at [q]; [None] when no string
    pointer is stored there. *)
Definition element_arg (m : gmap Z object) (T : ctype) (q : pointer)
    : option argument :=
  match T with
  | TCString =>
      match m !! q with
      | Some (OPointer s) => Some (mkArg Lvalue TCString s)
      | _ => None
      end
  | _ => Some (mkArg Lvalue T q)
  end.

(** The elements of a vector as arguments, first to last. *)
Fixpoint element_args (m : gmap Z object) (T : ctype) (qs : list pointer)
    : option (list argument) :=
  match qs with
  | [] => Some []
  | q :: qs' =>
      match element_arg m T q, element_args m T qs' with
      | Some r, Some rs => Some (r :: rs)
      | _, _ => None
      end
  end.


(** A call that leaves the caller's memory as it found it. *)
Definition keeps_mem {A : Type} (m : M A) : Prop :=
  ∀ w, mem (m w).1 = mem w.

(** The adapters of the header itself, the primary template left out. *)
Fixpoint builtin (T : ctype) : bool :=
  match T with
  | TClass _ => false
  | TVectorPtr T' => builtin T'
  | _ => true
  end.

(** A call that stops with a usage error. *)
Definition usage_error (m : M unit) (w : world) : Prop :=
  ∃ msg, (m w).2 = Abort (UsageError msg).

(** ** Fetching rows *)

Definition result_target (c : result_call) : pointer :=
  match c with
  | RScalar _ v => v
  | RUString v => v
  end.

(** Writing the columns of a row into the bound targets, in column order. *)
Fixpoint materialize (targets : list result_call) (row : list value)
    (m : gmap Z object) : gmap Z object :=
  match targets, row with
  | c :: targets', x :: row' =>
      materialize targets' row' (<[result_target c := OValue x]> m)
  | _, _ => m
  end.

(** Modelled from the spec: [UOrmStatement::nextRow] is declared in the
    header ("Move forward to next row, returns false if no more rows
    available") and defined outside it; it "advances to the next result row,
    materializing bound into targets; returns false and performs no further
    mutation once rows are exhausted". *)
Definition nextRow : M bool := λ w,
  match rows (pstmt w) with
  | [] => (w, Done false)
  | row :: rest =>
      (mkWorld (mkUSqlStatement (params (pstmt w)) (results (pstmt w)) rest)
               (materialize (results (pstmt w)) row (mem w)),
       Done true)
  end.

(** [n] calls of [nextRow] in a row, with what each returned. *)
Fixpoint nextRow_times (n : nat) : M (list bool) :=
  match n with
  | O => mret []
  | S n' => b ← nextRow; bs ← nextRow_times n'; mret (b :: bs)
  end.

(** ** Session *)

Module Session.

(** A driver plug-in, as far as the session uses it at construction. *)
Record UOrmDriver : Type := mkDriver {
  connect : string → bool
}.

Record UOrmSession : Type := mkSession {
  pdrv : UOrmDriver;
  ready : bool
}.

(** The process around a session: the drivers that can be loaded by name and
    the queries issued so far. *)
Record process : Type := mkProcess {
  plugins : gmap string UOrmDriver;
  issued : list string
}.

(** A call either returns to its caller or ends the process. *)
Inductive outcome (A : Type) : Type :=
| Returned (a : A) (p : process)
| Exited (p : process).
Arguments Returned {A} a p.
Arguments Exited {A} p.

Definition run (A : Type) : Type := process → outcome A.

Definition andThen {A B : Type} (m : run A) (k : A → run B) : run B := λ p,
  match m p with
  | Returned a p' => k a p'
  | Exited p' => Exited p'
  end.

(** [loadDriverFail] is declared [__noreturn]. *)
Definition loadDriverFail {A : Type} (backend : string) : run A := λ p, Exited p.

(** Modelled from the spec: [UOrmSession::loadDriver] is declared in the
    header and defined outside it; it "loads the named driver implementation
    and opens a connection using the option string; fails fatally
    (process-terminating) if the named driver cannot be loaded". *)
Definition loadDriver (backend option : string) : run UOrmSession := λ p,
  match plugins p !! backend with
  | None => loadDriverFail backend p
  | Some drv => Returned (mkSession drv (connect drv option)) p
  end.

(** The constructor [UOrmSession(backend, len, option)]. *)
Definition UOrmSession_ctor (backend option : string) : run UOrmSession :=
  loadDriver backend option.

(** Modelled from the spec: [UOrmSession::query] is declared in the header
    and defined outside it; it "executes a one-shot, non-prepared statement
    immediately; returns success/failure". *)
Definition query (session : UOrmSession) (text : string) : run bool := λ p,
  Returned (ready session) (mkProcess (plugins p) (issued p ++ [text])).

End Session.

(** ** What a call is expected to leave in the statement *)

(** The world with the parameter bindings [cs] added after those present. *)
Definition push_params (cs : list param_call) (w : world) : world :=
  mkWorld (mkUSqlStatement (params (pstmt w) ++ cs)
                           (results (pstmt w)) (rows (pstmt w)))
          (mem w).

(** The world with the result bindings [cs] added after those present. *)
Definition push_results (cs : list result_call) (w : world) : world :=
  mkWorld (mkUSqlStatement (params (pstmt w))
                           (results (pstmt w) ++ cs) (rows (pstmt w)))
          (mem w).

(** The adapters over one variable: every specialization but the NULL
    sentinel, the vectors and the primary template. *)
Definition simple (T : ctype) : bool :=
  match T with
  | TScalar _ | TCString | TUStringRep | TUString | TIstream | TTm => true
  | TNull | TVectorPtr _ | TVectorUString | TClass _ => false
  end.

(** The parameter-binding primitive the adapter of a simple type calls, with
    its argument. *)
Definition param_call_of (r : argument) : option param_call :=
  match arg_type r with
  | TScalar s => Some (PScalar s (arg_ref r))
  | TCString => Some (PCString (arg_ref r))
  | TUStringRep => Some (PUStringRep (arg_ref r))
  | TUString => Some (PUString (arg_ref r))
  | TIstream => Some (PIstream (arg_ref r))
  | TTm => Some (PTm (arg_ref r))
  | TNull | TVectorPtr _ | TVectorUString | TClass _ => None
  end.

(** The result-binding primitive the adapter of a simple type calls, if it
    calls one. *)
Definition result_call_of (r : argument) : option result_call :=
  match arg_type r with
  | TScalar s => Some (RScalar s (arg_ref r))
  | TUString => Some (RUString (arg_ref r))
  | _ => None
  end.

(** An argument of a simple type over a non-null pointer. *)
Definition simple_arg (r : argument) : Prop :=
  simple (arg_type r) = true ∧ arg_ref r ≠ U_NULLPTR.

(** A simple argument whose [bindResult] returns: any simple type but
    [UStringRep]. *)
Definition quiet_arg (r : argument) : Prop :=
  simple_arg r ∧ arg_type r ≠ TUStringRep.

(** The statement tables of [w'] extend those of [w] on the parameter side
    only: the bindings already made keep their slots, result bindings, rows
    and memory are the same. *)
Definition grows_params (w w' : world) : Prop :=
  params (pstmt w) `prefix_of` params (pstmt w') ∧
  results (pstmt w') = results (pstmt w) ∧
  rows (pstmt w') = rows (pstmt w) ∧
  mem w' = mem w.

(** The same on the result side. *)
Definition grows_results (w w' : world) : Prop :=
  results (pstmt w) `prefix_of` results (pstmt w') ∧
  params (pstmt w') = params (pstmt w) ∧
  rows (pstmt w') = rows (pstmt w) ∧
  mem w' = mem w.

(** A call that takes every world to one related to it by [R] and that, when
    it fails, fails with a failure in [E]. *)
Definition holds {A : Type} (R : world → world → Prop) (E : failure → Prop)
    (m : M A) : Prop :=
  ∀ w, R w (m w).1 ∧ ∀ e, (m w).2 = Abort e → E e.

(** Every failure but a usage error. *)
Definition not_usage (e : failure) : Prop :=
  match e with
  | UsageError _ => False
  | _ => True
  end.

(** ** Sample states *)

(** A freshly prepared statement with nothing bound, over an empty memory. *)
Definition fresh : world := mkWorld (mkUSqlStatement [] [] []) ∅.

(** A vector at address 100 whose array, at 200, holds the two element
    pointers 300 and 301. *)
Definition with_vector : world :=
  mkWorld (mkUSqlStatement [] [] [])
          (<[100%Z := OVector (mkUVector 200%Z 2)]>
             (<[200%Z := OPointer 300%Z]> (<[201%Z := OPointer 301%Z]> ∅))).

(** The element pointers of that vector. *)
Definition two_elements : list pointer := [300; 301]%Z.

(** A statement with two rows to fetch. *)
Definition two_rows : world :=
  mkWorld (mkUSqlStatement [] []
             [[VInt 1; VText "one"]; [VInt 2; VText "two"]]) ∅.

(** An [int], a [const char*] and a [UString]. *)
Definition three_arguments : list argument :=
  [mkArg Lvalue (TScalar SInt) 4096; mkArg Lvalue TCString 4097; mkArg Lvalue TUString 4098].

(** An [int] and a [UString]. *)
Definition two_arguments : list argument :=
  [mkArg Lvalue (TScalar SInt) 4096; mkArg Lvalue TUString 4097].

(** The same two variables passed as rvalues, as in
    [into(std::move(i), std::move(u))]. *)
Definition two_rvalues : list argument :=
  [mkArg Rvalue (TScalar SInt) 4096; mkArg Rvalue TUString 4097].

(** The statement of [two_rows] after [into(x, y)] on [two_arguments] and two
    calls of [nextRow]. *)
Definition fetched_all : world :=
  (nextRow_times 2
     (manual_bindResult U_INTERNAL_ASSERT_POINTER two_arguments two_rows).1).1.

(** A vector of [int] at address 100, the NULL sentinel and a [UStringRep]
    given through a null pointer: arguments of the header's own types that
    are not all bindable. *)
Definition builtin_arguments : list argument :=
  [mkArg Lvalue (TVectorPtr (TScalar SInt)) 100; mkArg Lvalue TNull 0; mkArg Lvalue TUStringRep 0].

(** A [struct tm], an [int] and a [UString]. *)
Definition three_outputs : list argument :=
  mkArg Lvalue TTm 5000 :: two_arguments.

(** A vector of [const char*] at address 100: its array, at 200, holds the
    element pointers 300 and 301, and the elements hold the string pointers
    700 and 701. *)
Definition with_cstring_vector : world :=
  mkWorld (mkUSqlStatement [] [] [])
          (<[100%Z := OVector (mkUVector 200%Z 2)]>
             (<[200%Z := OPointer 300%Z]>
                (<[201%Z := OPointer 301%Z]>
                   (<[300%Z := OPointer 700%Z]>
                      (<[301%Z := OPointer 701%Z]> ∅))))).

(** The strings of that vector, as arguments. *)
Definition two_strings : list argument :=
  [mkArg Lvalue TCString 700; mkArg Lvalue TCString 701].

(** A vector header at address 100 with no element in use and no array. *)
Definition with_empty_vector : world :=
  mkWorld (mkUSqlStatement [] [] [])
          (<[100%Z := OVector (mkUVector 0%Z 0)]> ∅).

(** * Properties *)

(** ** Sequencing *)

Lemma bind_run {A B : Type} (m : M A) (k : A → M B) (w : world) :
  (m ≫= k) w = match m w with
               | (w', Done a) => k a w'
               | (w', Abort e) => (w', Abort e)
               end.
Proof. reflexivity. Qed.

Lemma bind_unit_ret (m : M unit) (w : world) : (m;; mret ()) w = m w.
Proof.
  unfold mbind, M_bind, mret, M_ret.
  destruct (m w) as [w' [[]|e]]; reflexivity.
Qed.

Lemma bind_ext {A B : Type} (m : M A) (k1 k2 : A → M B) (w : world) :
  (∀ a w', k1 a w' = k2 a w') → (m ≫= k1) w = (m ≫= k2) w.
Proof.
  intros Hk. unfold mbind, M_bind.
  destruct (m w) as [w' [a|e]]; [apply Hk | reflexivity].
Qed.

(** A comma fold runs its operands like one statement per operand. *)
Lemma comma_fold_cons (e : M unit) (es : list (M unit)) (w : world) :
  comma_fold (e :: es) w = (e;; comma_fold es) w.
Proof.
  destruct es as [|e' es]; [symmetry; apply bind_unit_ret | reflexivity].
Qed.



Section Sugar.

Variable assert_pointer : pointer → bool.

Lemma comma_fold_bindParam (rs : list argument) (w : world) :
  comma_fold (map (bindParam_of assert_pointer) rs) w
  = manual_bindParam assert_pointer rs w.
Proof.
  revert w. induction rs as [|r rs IH]; intros w; [reflexivity|].
  cbn [map manual_bindParam]. rewrite comma_fold_cons.
  apply bind_ext. intros _ w'. apply IH.
Qed.

Lemma comma_fold_bindResult (rs : list argument) (w : world) :
  comma_fold (map (bindResult_of assert_pointer) rs) w
  = manual_bindResult assert_pointer rs w.
Proof.
  revert w. induction rs as [|r rs IH]; intros w; [reflexivity|].
  cbn [map manual_bindResult]. rewrite comma_fold_cons.
  apply bind_ext. intros _ w'. apply IH.
Qed.





End Sugar.

(** ** Calls that leave the caller's memory alone *)

Lemma keeps_mem_ret {A : Type} (a : A) : keeps_mem (mret a).
Proof. intros w. reflexivity. Qed.

Lemma keeps_mem_fail {A : Type} (e : failure) : keeps_mem (fail (A:=A) e).
Proof. intros w. reflexivity. Qed.

Lemma keeps_mem_bind {A B : Type} (m : M A) (k : A → M B) :
  keeps_mem m → (∀ a, keeps_mem (k a)) → keeps_mem (m ≫= k).
Proof.
  intros Hm Hk w. specialize (Hm w). unfold mbind, M_bind.
  destruct (m w) as [w' [a|e]]; simpl in *; [|done].
  by rewrite Hk.
Qed.

Lemma keeps_mem_stmt_bindParam (c : param_call) : keeps_mem (stmt_bindParam c).
Proof. intros w. reflexivity. Qed.

Lemma keeps_mem_stmt_bindResult (c : result_call) : keeps_mem (stmt_bindResult c).
Proof. intros w. reflexivity. Qed.

Lemma keeps_mem_deref (p : pointer) : keeps_mem (deref p).
Proof. intros w. unfold deref. by destruct (decide _). Qed.

Lemma keeps_mem_load_vector (p : pointer) : keeps_mem (load_vector p).
Proof. intros w. unfold load_vector. by destruct (mem w !! p) as [[]|]. Qed.

Lemma keeps_mem_load_pointer (p : pointer) : keeps_mem (load_pointer p).
Proof. intros w. unfold load_pointer. by destruct (mem w !! p) as [[]|]. Qed.

Lemma keeps_mem_for_ptr (body : pointer → M unit) (ptr : pointer) (n : nat) :
  (∀ q, keeps_mem (body q)) → keeps_mem (for_ptr body ptr n).
Proof.
  intros Hbody. revert ptr. induction n as [|n IH]; intros ptr; simpl.
  - apply keeps_mem_ret.
  - apply keeps_mem_bind; [apply keeps_mem_load_pointer|]. intros q.
    apply keeps_mem_bind; [apply Hbody | intros _; apply IH].
Qed.

Lemma keeps_mem_uvector_each (elem : pointer → M unit) (p : pointer) :
  (∀ q, keeps_mem (elem q)) → keeps_mem (uvector_each elem p).
Proof.
  intros Helem. apply keeps_mem_bind; [apply keeps_mem_load_vector|].
  intros v. by apply keeps_mem_for_ptr.
Qed.

Lemma keeps_mem_element_val (T : ctype) (q : pointer) :
  keeps_mem (element_val T q).
Proof.
  destruct T; simpl; try apply keeps_mem_ret. apply keeps_mem_load_pointer.
Qed.

Create HintDb keeps.
#[local] Hint Resolve keeps_mem_ret keeps_mem_fail keeps_mem_stmt_bindParam
  keeps_mem_stmt_bindResult keeps_mem_deref : keeps.

Section Adapters.

Variable assert_pointer : pointer → bool.

Lemma keeps_mem_ctor (T : ctype) (val : pointer) :
  keeps_mem (UOrmTypeHandler_ctor assert_pointer T val).
Proof.
  intros w. destruct T; simpl; unfold UOrmTypeHandler_Base;
    by destruct (assert_pointer _).
Qed.

Lemma keeps_mem_with_temp (T : ctype) (val : pointer)
    (body : UOrmTypeHandler → M unit) :
  (∀ t, keeps_mem (body t)) → keeps_mem (with_temp assert_pointer T val body).
Proof.
  intros Hbody. apply keeps_mem_bind; [apply keeps_mem_ctor|]. intros t.
  apply keeps_mem_bind; [apply Hbody|]. intros _ w.
  unfold UOrmTypeHandler_Base_dtor. by destruct (assert_pointer _).
Qed.

(** None of the header's own adapters writes the caller's memory when it
    binds. *)
Lemma builtin_keeps_mem (T : ctype) :
  builtin T = true →
  ∀ p, keeps_mem (bindParam_at assert_pointer T p) ∧
       keeps_mem (bindResult_at assert_pointer T p).
Proof.
  induction T as [ |s| | | | | |T IH| |c]; intros HT p; simpl in *;
    try discriminate;
    unfold null_bindParam, null_bindResult, scalar_bindParam, scalar_bindResult,
      cstring_bindParam, cstring_bindResult, UStringRep_bindParam,
      UStringRep_bindResult, UString_bindParam, UString_bindResult,
      istream_bindParam, istream_bindResult, tm_bindParam, tm_bindResult,
      UVectorUString_bindResult, U_ERROR;
    try (split; first [ apply keeps_mem_bind; [auto with keeps|intros; auto with keeps]
                      | auto with keeps ]; fail).
  - split; apply keeps_mem_uvector_each; intros q;
      (apply keeps_mem_bind; [apply keeps_mem_element_val|]); intros val;
      apply keeps_mem_with_temp; intros t; apply IH; done.
  - split; [|apply keeps_mem_fail].
    apply keeps_mem_uvector_each; intros q; apply keeps_mem_with_temp; intros t.
    apply keeps_mem_bind; [auto with keeps|intros; auto with keeps].
Qed.

End Adapters.

(** ** Vectors *)

Lemma read_slots_length (m : gmap Z object) (n : nat) :
  ∀ ptr qs, read_slots m ptr n = Some qs → length qs = n.
Proof.
  induction n as [|n IH]; intros ptr qs; simpl.
  - by intros [= <-].
  - destruct (m !! ptr) as [[| |q]|]; try discriminate.
    destruct (read_slots m (ptr + 1)%Z n) as [qs'|] eqn:E; simpl; [|discriminate].
    intros [= <-]. simpl. f_equal. by eapply IH.
Qed.

(** The pointer loop runs [elem] on the element pointers of the slots, first
    to last, as long as [elem] leaves the memory alone. *)
Lemma for_ptr_foldr (elem : pointer → M unit) (qs : list pointer) :
  (∀ q, keeps_mem (elem q)) →
  ∀ ptr w, read_slots (mem w) ptr (length qs) = Some qs →
  for_ptr elem ptr (length qs) w
  = foldr (λ q k, elem q;; k) (mret ()) qs w.
Proof.
  intros Hkeep.
  induction qs as [|q qs IH]; intros ptr w Hrd; [reflexivity|].
  simpl in Hrd.
  destruct (mem w !! ptr) as [[| |q']|] eqn:Hslot; try discriminate.
  destruct (read_slots (mem w) (ptr + 1)%Z (length qs)) as [qs'|] eqn:Hrest;
    simpl in Hrd; [|discriminate].
  injection Hrd as -> ->.
  cbn [for_ptr foldr length]. rewrite !bind_run.
  unfold load_pointer. rewrite Hslot. rewrite !bind_run.
  pose proof (Hkeep q w) as Hmem.
  destruct (elem q w) as [w1 [[]|e]]; [|reflexivity].
  simpl in Hmem. apply IH. by rewrite Hmem.
Qed.

Section Vectors.

Variable assert_pointer : pointer → bool.

(** The adapter a constructor returns is of the type it was built at. *)
Lemma with_temp_type (T : ctype) (val : pointer)
    (f : ctype → pointer → M unit) (w : world) :
  with_temp assert_pointer T val (λ t, f (handler_type t) (pval t)) w
  = with_temp assert_pointer T val (λ t, f T (pval t)) w.
Proof.
  unfold with_temp, mbind, M_bind.
  destruct T; simpl; unfold UOrmTypeHandler_Base;
    destruct (assert_pointer _); reflexivity.
Qed.

Lemma foldr_bindParam (T : ctype) (qs : list pointer) (w : world) :
  foldr (λ q k, with_temp assert_pointer T q
                  (λ t, bindParam_at assert_pointer T (pval t));; k)
        (mret ()) qs w
  = manual_bindParam assert_pointer (map (mkArg Lvalue T) qs) w.
Proof.
  revert w. induction qs as [|q qs IH]; intros w; [reflexivity|].
  cbn [foldr map manual_bindParam]. rewrite !bind_run.
  unfold bindParam_of, bindParam, UOrmTypeHandler_bindParam. cbn [arg_type arg_ref].
  rewrite (with_temp_type T q (bindParam_at assert_pointer)).
  destruct (with_temp _ _ _ _ w) as [w' [[]|e]]; [apply IH | reflexivity].
Qed.

Lemma foldr_bindResult (T : ctype) (qs : list pointer) (w : world) :
  foldr (λ q k, with_temp assert_pointer T q
                  (λ t, bindResult_at assert_pointer T (pval t));; k)
        (mret ()) qs w
  = manual_bindResult assert_pointer (map (mkArg Lvalue T) qs) w.
Proof.
  revert w. induction qs as [|q qs IH]; intros w; [reflexivity|].
  cbn [foldr map manual_bindResult]. rewrite !bind_run.
  unfold bindResult_of, bindResult, UOrmTypeHandler_bindResult. cbn [arg_type arg_ref].
  rewrite (with_temp_type T q (bindResult_at assert_pointer)).
  destruct (with_temp _ _ _ _ w) as [w' [[]|e]]; [apply IH | reflexivity].
Qed.

(** Reading the element and building the adapter on what was read is the
    statement binding that element by hand. *)
Lemma element_with_temp (f : ctype → pointer → M unit) (T : ctype)
    (q : pointer) (r : argument) (w : world) :
  element_arg (mem w) T q = Some r →
  (val ← element_val T q;
   with_temp assert_pointer T val (λ t, f T (pval t))) w
  = with_temp assert_pointer (arg_type r) (arg_ref r)
      (λ t, f (handler_type t) (pval t)) w.
Proof.
  intros Hr. rewrite with_temp_type, bind_run.
  destruct T; simpl in Hr |- *; try (injection Hr as <-; reflexivity).
  unfold load_pointer.
  destruct (mem w !! q) as [[| |s]|]; try discriminate Hr.
  by injection Hr as <-.
Qed.

Lemma foldr_element_bindParam (T : ctype) (qs : list pointer) :
  (∀ q, keeps_mem (bindParam_at assert_pointer T q)) →
  ∀ rs w, element_args (mem w) T qs = Some rs →
  foldr (λ q k, (val ← element_val T q;
                 with_temp assert_pointer T val
                   (λ t, bindParam_at assert_pointer T (pval t)));; k)
        (mret ()) qs w
  = manual_bindParam assert_pointer rs w.
Proof.
  intros Hkeep. induction qs as [|q qs IH]; intros rs w Hrs; simpl in Hrs.
  - by injection Hrs as <-.
  - destruct (element_arg (mem w) T q) as [r|] eqn:Hr; [|discriminate Hrs].
    destruct (element_args (mem w) T qs) as [rs'|] eqn:Hrs'; [|discriminate Hrs].
    injection Hrs as <-.
    cbn [foldr manual_bindParam].
    rewrite (bind_run (element_val T q ≫= _)),
      (bind_run (bindParam_of assert_pointer r)).
    rewrite (element_with_temp (bindParam_at assert_pointer) T q r w Hr).
    change (with_temp assert_pointer (arg_type r) (arg_ref r)
              (λ t, bindParam_at assert_pointer (handler_type t) (pval t)) w)
      with (bindParam_of assert_pointer r w).
    assert (mem (bindParam_of assert_pointer r w).1 = mem w) as Hmem.
    { change (bindParam_of assert_pointer r w)
        with (with_temp assert_pointer (arg_type r) (arg_ref r)
                (λ t, bindParam_at assert_pointer (handler_type t) (pval t)) w).
      rewrite <- (element_with_temp (bindParam_at assert_pointer) T q r w Hr).
      apply (keeps_mem_bind (element_val T q)); [apply keeps_mem_element_val|].
      intros val. apply keeps_mem_with_temp. intros t. apply Hkeep. }
    destruct (bindParam_of assert_pointer r w) as [w' [[]|e]]; [|reflexivity].
    simpl in Hmem. apply IH. by rewrite Hmem.
Qed.

Lemma foldr_element_bindResult (T : ctype) (qs : list pointer) :
  (∀ q, keeps_mem (bindResult_at assert_pointer T q)) →
  ∀ rs w, element_args (mem w) T qs = Some rs →
  foldr (λ q k, (val ← element_val T q;
                 with_temp assert_pointer T val
                   (λ t, bindResult_at assert_pointer T (pval t)));; k)
        (mret ()) qs w
  = manual_bindResult assert_pointer rs w.
Proof.
  intros Hkeep. induction qs as [|q qs IH]; intros rs w Hrs; simpl in Hrs.
  - by injection Hrs as <-.
  - destruct (element_arg (mem w) T q) as [r|] eqn:Hr; [|discriminate Hrs].
    destruct (element_args (mem w) T qs) as [rs'|] eqn:Hrs'; [|discriminate Hrs].
    injection Hrs as <-.
    cbn [foldr manual_bindResult].
    rewrite (bind_run (element_val T q ≫= _)),
      (bind_run (bindResult_of assert_pointer r)).
    rewrite (element_with_temp (bindResult_at assert_pointer) T q r w Hr).
    change (with_temp assert_pointer (arg_type r) (arg_ref r)
              (λ t, bindResult_at assert_pointer (handler_type t) (pval t)) w)
      with (bindResult_of assert_pointer r w).
    assert (mem (bindResult_of assert_pointer r w).1 = mem w) as Hmem.
    { change (bindResult_of assert_pointer r w)
        with (with_temp assert_pointer (arg_type r) (arg_ref r)
                (λ t, bindResult_at assert_pointer (handler_type t) (pval t)) w).
      rewrite <- (element_with_temp (bindResult_at assert_pointer) T q r w Hr).
      apply (keeps_mem_bind (element_val T q)); [apply keeps_mem_element_val|].
      intros val. apply keeps_mem_with_temp. intros t. apply Hkeep. }
    destruct (bindResult_of assert_pointer r w) as [w' [[]|e]]; [|reflexivity].
    simpl in Hmem. apply IH. by rewrite Hmem.
Qed.

(** The vector body, on a vector whose slots hold [qs]. *)
Lemma uvector_each_foldr (elem : pointer → M unit) (p : pointer)
    (qs : list pointer) (w : world) :
  (∀ q, keeps_mem (elem q)) →
  vector_at (mem w) p qs →
  uvector_each elem p w = foldr (λ q k, elem q;; k) (mret ()) qs w.
Proof.
  intros Hkeep (v & Hv & Hrd).
  unfold uvector_each. rewrite bind_run. unfold load_vector. rewrite Hv.
  rewrite <- (read_slots_length _ _ _ _ Hrd) in Hrd |- *.
  by apply for_ptr_foldr.
Qed.

End Vectors.

(** ** The adapters *)

Section Binding.

Variable assert_pointer : pointer → bool.

(** C1 (as amended): [bindResult] of the adapters for [UStringRep] and for
    [UVector<UString>] stops with a usage error and binds nothing; [bindResult]
    of the adapter for [const char*] returns normally, binds nothing and
    signals nothing. *)
Theorem text_reference_bindResult (p : pointer) (w : world) :
  (usage_error (bindResult assert_pointer (mkHandler TUStringRep p)) w ∧
   (bindResult assert_pointer (mkHandler TUStringRep p) w).1 = w) ∧
  (usage_error (bindResult assert_pointer (mkHandler TVectorUString p)) w ∧
   (bindResult assert_pointer (mkHandler TVectorUString p) w).1 = w) ∧
  bindResult assert_pointer (mkHandler TCString p) w = (w, Done ()).
Proof.
  repeat split; eexists; reflexivity.
Qed.

(** C6: [bindParam] of the NULL-sentinel adapter calls the statement's
    zero-argument [bindParam()]: the table of parameter bindings grows by one
    SQL NULL, at the next free slot, and nothing else changes.  It does so
    whatever [pval] is, the null pointer included, and whatever the memory
    holds: it forms no reference from [pval] and reads nothing. *)
Theorem null_bindParam_binds_sql_null (p : pointer) (w : world) :
  bindParam assert_pointer (mkHandler TNull p) w
  = (mkWorld (mkUSqlStatement (params (pstmt w) ++ [PNull])
                              (results (pstmt w)) (rows (pstmt w)))
             (mem w),
     Done ()) ∧
  params (pstmt (bindParam assert_pointer (mkHandler TNull p) w).1)
    !! length (params (pstmt w)) = Some PNull.
Proof.
  split; [reflexivity|].
  simpl. by rewrite lookup_app_r, Nat.sub_diag.
Qed.

(** C10: [bindResult] of the adapters for [istream], [struct tm] and the NULL
    sentinel returns normally and leaves the statement and the memory
    untouched: no result binding is made and no error is signalled; the
    adapters for [UStringRep] and [UVector<UString>] stop with a usage
    error instead. *)
Theorem silent_bindResult (p : pointer) (w : world) :
  bindResult assert_pointer (mkHandler TIstream p) w = (w, Done ()) ∧
  bindResult assert_pointer (mkHandler TTm p) w = (w, Done ()) ∧
  bindResult assert_pointer (mkHandler TNull p) w = (w, Done ()) ∧
  usage_error (bindResult assert_pointer (mkHandler TUStringRep p)) w ∧
  usage_error (bindResult assert_pointer (mkHandler TVectorUString p)) w.
Proof.
  repeat split; eexists; reflexivity.
Qed.

(** C5 (as amended): on a vector whose slots hold the element pointers
    [qs] and whose element adapter does not write the caller's memory,
    [bindParam] and [bindResult] of the adapter for a vector of pointers to
    [T] bind the elements first to last, one [UOrmTypeHandler<T>] per
    element, built over the element ([rs] are the elements as arguments: for
    [const char*] the strings stored in them); [bindParam] of the adapter for
    [UVector<UString>] does the same with one [UOrmTypeHandler<UStringRep>]
    per element; [bindResult] of the adapter for [UVector<UString>] delegates
    to nothing and stops with a usage error. *)
Theorem vector_binds_each_element (T : ctype) (p : pointer)
    (qs : list pointer) (rs : list argument) (w : world) :
  vector_at (mem w) p qs →
  element_args (mem w) T qs = Some rs →
  (∀ q, keeps_mem (bindParam_at assert_pointer T q)) →
  (∀ q, keeps_mem (bindResult_at assert_pointer T q)) →
  bindParam assert_pointer (mkHandler (TVectorPtr T) p) w
    = manual_bindParam assert_pointer rs w ∧
  bindResult assert_pointer (mkHandler (TVectorPtr T) p) w
    = manual_bindResult assert_pointer rs w ∧
  bindParam assert_pointer (mkHandler TVectorUString p) w
    = manual_bindParam assert_pointer (map (mkArg Lvalue TUStringRep) qs) w ∧
  (usage_error (bindResult assert_pointer (mkHandler TVectorUString p)) w ∧
   (bindResult assert_pointer (mkHandler TVectorUString p) w).1 = w).
Proof.
  intros Hvec Hrs HkP HkR.
  unfold bindParam, bindResult, UOrmTypeHandler_bindParam,
    UOrmTypeHandler_bindResult.
  cbn [handler_type pval bindParam_at bindResult_at].
  split; [|split; [|split]].
  - rewrite (uvector_each_foldr _ p qs w); [by apply foldr_element_bindParam| |done].
    intros q. apply keeps_mem_bind; [apply keeps_mem_element_val|]. intros val.
    apply keeps_mem_with_temp. intros t. apply HkP.
  - rewrite (uvector_each_foldr _ p qs w); [by apply foldr_element_bindResult| |done].
    intros q. apply keeps_mem_bind; [apply keeps_mem_element_val|]. intros val.
    apply keeps_mem_with_temp. intros t. apply HkR.
  - rewrite (uvector_each_foldr _ p qs w);
      [apply (foldr_bindParam assert_pointer TUStringRep)| |done].
    intros q. apply keeps_mem_with_temp. intros t.
    apply (builtin_keeps_mem assert_pointer TUStringRep eq_refl).
  - split; [eexists|]; reflexivity.
Qed.

End Binding.

(** The base constructor, with the assertion on, accepts exactly the non-null
    pointers. *)
Lemma base_ctor_asserts_pointer (T : ctype) (ptr : pointer) (w : world) :
  UOrmTypeHandler_Base U_INTERNAL_ASSERT_POINTER T ptr w
  = if decide (ptr = U_NULLPTR) then (w, Abort AssertionFailed)
    else (w, Done (mkHandler T ptr)).
Proof.
  unfold UOrmTypeHandler_Base, U_INTERNAL_ASSERT_POINTER.
  destruct (decide (ptr = U_NULLPTR)) as [->|Hne].
  - reflexivity.
  - by rewrite bool_decide_eq_true_2.
Qed.

(** C2: with the assertion on, the constructor of the NULL-sentinel adapter,
    which hands [U_NULLPTR] to the base constructor, trips the assertion of
    the base constructor like any other adapter built over a null pointer;
    it does not return an adapter. *)
Theorem null_adapter_ctor_trips_assertion (val : pointer) (w : world) :
  UOrmTypeHandler_ctor U_INTERNAL_ASSERT_POINTER TNull val w
  = (w, Abort AssertionFailed).
Proof. reflexivity. Qed.

(** ** Fetching *)

(** C9: once the result set is exhausted, any number of further calls of
    [nextRow] all return false and leave the statement and the caller's
    memory as they were: the bound output variables keep what the last
    fetched row put in them. *)
Theorem nextRow_exhausted (n : nat) (w : world) :
  rows (pstmt w) = [] →
  nextRow_times n w = (w, Done (replicate n false)).
Proof.
  intros Hrows. induction n as [|n IH]; [reflexivity|].
  cbn [nextRow_times replicate]. rewrite bind_run.
  unfold nextRow at 1. rewrite Hrows. rewrite bind_run, IH. reflexivity.
Qed.

(** Fetching a row leaves the bindings alone and consumes the row. *)
Lemma nextRow_fetches (w : world) (row : list value) (rest : list (list value)) :
  rows (pstmt w) = row :: rest →
  nextRow w
  = (mkWorld (mkUSqlStatement (params (pstmt w)) (results (pstmt w)) rest)
             (materialize (results (pstmt w)) row (mem w)),
     Done true).
Proof. intros Hrows. unfold nextRow. by rewrite Hrows. Qed.

(** ** Session *)

(** C7: when the named driver cannot be loaded, the constructor of
    [UOrmSession] does not return: the process ends there, and whatever the
    program would have done with the session next, a query included, is never
    run; the list of issued queries is as it was before the constructor. *)
Theorem unknown_driver_terminates {A : Type} (backend option : string)
    (next : Session.UOrmSession → Session.run A) (p : Session.process) :
  Session.plugins p !! backend = None →
  Session.UOrmSession_ctor backend option p = Session.Exited p ∧
  Session.andThen (Session.UOrmSession_ctor backend option) next p
  = Session.Exited p.
Proof.
  intros Hnone.
  assert (Session.UOrmSession_ctor backend option p = Session.Exited p) as Hctor.
  { unfold Session.UOrmSession_ctor, Session.loadDriver. by rewrite Hnone. }
  split; [done|]. unfold Session.andThen. by rewrite Hctor.
Qed.

(** A driver that loads: the constructor returns a session and a query on
    it is issued. *)
Example known_driver_runs_query :
  let drv := Session.mkDriver (λ _, true) in
  Session.andThen (Session.UOrmSession_ctor "sqlite" "dbname=t")
      (λ s, Session.query s "SELECT 1")
      (Session.mkProcess {["sqlite" := drv]} [])
  = Session.Returned true (Session.mkProcess {["sqlite" := drv]} ["SELECT 1"]).
Proof. reflexivity. Qed.

(** * Instances *)



(** The calls each build takes: the variables of [two_arguments] passed as
    lvalues are taken by the overloads and refused by the variadic template;
    passed as rvalues they are taken by the variadic template and refused by
    the overloads. *)
Example value_category_decides :
  use U_INTERNAL_ASSERT_POINTER true two_arguments = None ∧
  use U_INTERNAL_ASSERT_POINTER false two_rvalues = None ∧
  is_Some (use U_INTERNAL_ASSERT_POINTER false two_arguments) ∧
  is_Some (use U_INTERNAL_ASSERT_POINTER true two_rvalues).
Proof. repeat split; by eexists. Qed.

(** [use(i, s)] on an [int] and a [const char*] records the two parameters
    in that order. *)
Example use_int_cstring :
  use U_INTERNAL_ASSERT_POINTER false [mkArg Lvalue (TScalar SInt) 4096; mkArg Lvalue TCString 4097]
    ≫= (λ m, Some (m fresh))
  = Some (mkWorld (mkUSqlStatement [PScalar SInt 4096; PCString 4097] [] []) ∅,
          Done ()).
Proof. reflexivity. Qed.

(** Binding stops at the first argument that cannot be bound: [into(i, rep, u)]
    binds the [int] and ends in the usage error of [UStringRep]. *)
Example into_stops_at_UStringRep :
  ∃ msg,
    into U_INTERNAL_ASSERT_POINTER false
      [mkArg Lvalue (TScalar SInt) 4096; mkArg Lvalue TUStringRep 4097; mkArg Lvalue TUString 4098]
      ≫= (λ m, Some (m fresh))
    = Some (mkWorld (mkUSqlStatement [] [RScalar SInt 4096] []) ∅,
            Abort (UsageError msg)).
Proof. eexists. reflexivity. Qed.

(** No overload of [use] takes twenty-one arguments. *)
Example use_21_arguments :
  use U_INTERNAL_ASSERT_POINTER false (replicate 21 (mkArg Lvalue (TScalar SInt) 4096)) = None.
Proof. reflexivity. Qed.

(** C1 (as stated) fails for [const char*]: [bindResult] of that adapter
    returns normally, having bound nothing and signalled nothing. *)
Lemma cstring_bindResult_silent :
  bindResult U_INTERNAL_ASSERT_POINTER (mkHandler TCString 4096) fresh
    = (fresh, Done ()) ∧
  ¬ usage_error (bindResult U_INTERNAL_ASSERT_POINTER (mkHandler TCString 4096)) fresh.
Proof.
  split; [reflexivity|]. intros [msg Hmsg]. discriminate Hmsg.
Qed.

(** C5 (as stated) fails for [bindResult] of [UVector<UString>]: on a vector
    of two elements it binds nothing and stops with a usage error, where
    delegating to [UOrmTypeHandler<UString>] element by element binds the two
    elements as results. *)
Lemma uvector_UString_bindResult_not_elementwise :
  vector_at (mem with_vector) 100 two_elements ∧
  (∃ msg, bindResult U_INTERNAL_ASSERT_POINTER (mkHandler TVectorUString 100) with_vector
          = (with_vector, Abort (UsageError msg))) ∧
  manual_bindResult U_INTERNAL_ASSERT_POINTER (map (mkArg Lvalue TUString) two_elements) with_vector
  = (mkWorld (mkUSqlStatement [] [RUString 300; RUString 301] []) (mem with_vector),
     Done ()).
Proof.
  split; [|split].
  - eexists. split; reflexivity.
  - eexists. reflexivity.
  - reflexivity.
Qed.

(** A vector of two [int]s at address 100. *)
Lemma vector_binds_each_element_witness :
  vector_at (mem with_vector) 100 two_elements ∧
  element_args (mem with_vector) (TScalar SInt) two_elements
    = Some (map (mkArg Lvalue (TScalar SInt)) two_elements) ∧
  (∀ q, keeps_mem (bindParam_at U_INTERNAL_ASSERT_POINTER (TScalar SInt) q)) ∧
  (∀ q, keeps_mem (bindResult_at U_INTERNAL_ASSERT_POINTER (TScalar SInt) q)) ∧
  (bindParam U_INTERNAL_ASSERT_POINTER (mkHandler (TVectorPtr (TScalar SInt)) 100) with_vector
     = manual_bindParam U_INTERNAL_ASSERT_POINTER (map (mkArg Lvalue (TScalar SInt)) two_elements) with_vector ∧
   bindResult U_INTERNAL_ASSERT_POINTER (mkHandler (TVectorPtr (TScalar SInt)) 100) with_vector
     = manual_bindResult U_INTERNAL_ASSERT_POINTER (map (mkArg Lvalue (TScalar SInt)) two_elements) with_vector ∧
   bindParam U_INTERNAL_ASSERT_POINTER (mkHandler TVectorUString 100) with_vector
     = manual_bindParam U_INTERNAL_ASSERT_POINTER (map (mkArg Lvalue TUStringRep) two_elements) with_vector ∧
   (usage_error (bindResult U_INTERNAL_ASSERT_POINTER (mkHandler TVectorUString 100)) with_vector ∧
    (bindResult U_INTERNAL_ASSERT_POINTER (mkHandler TVectorUString 100) with_vector).1
      = with_vector)).
Proof.
  assert (vector_at (mem with_vector) 100 two_elements) as Hvec.
  { eexists. split; reflexivity. }
  assert (element_args (mem with_vector) (TScalar SInt) two_elements
          = Some (map (mkArg Lvalue (TScalar SInt)) two_elements)) as Hrs.
  { reflexivity. }
  pose proof (λ q, proj1 (builtin_keeps_mem U_INTERNAL_ASSERT_POINTER
                            (TScalar SInt) eq_refl q)) as HkP.
  pose proof (λ q, proj2 (builtin_keeps_mem U_INTERNAL_ASSERT_POINTER
                            (TScalar SInt) eq_refl q)) as HkR.
  split; [exact Hvec|]. split; [exact Hrs|].
  split; [exact HkP|]. split; [exact HkR|].
  exact (vector_binds_each_element U_INTERNAL_ASSERT_POINTER (TScalar SInt)
           100 two_elements _ with_vector Hvec Hrs HkP HkR).
Defined.

(** What the two vector adapters record on that vector. *)
Example vector_of_int_bindParam :
  bindParam U_INTERNAL_ASSERT_POINTER (mkHandler (TVectorPtr (TScalar SInt)) 100) with_vector
  = (mkWorld (mkUSqlStatement [PScalar SInt 300; PScalar SInt 301] [] [])
             (mem with_vector),
     Done ()).
Proof. reflexivity. Qed.

Example vector_of_UString_bindParam :
  bindParam U_INTERNAL_ASSERT_POINTER (mkHandler TVectorUString 100) with_vector
  = (mkWorld (mkUSqlStatement [PUStringRep 300; PUStringRep 301] [] [])
             (mem with_vector),
     Done ()).
Proof. reflexivity. Qed.

(** A vector of [const char*] binds the strings stored in its elements, not
    the element pointers. *)
Example vector_of_cstring_bindParam :
  bindParam U_INTERNAL_ASSERT_POINTER (mkHandler (TVectorPtr TCString) 100)
    with_cstring_vector
  = (mkWorld (mkUSqlStatement [PCString 700; PCString 701] [] [])
             (mem with_cstring_vector),
     Done ()).
Proof. reflexivity. Qed.

(** With the assertion on, a vector of [int] with a null element pointer
    stops in the assertion of the element adapter's constructor. *)
Example vector_with_null_element :
  bindParam U_INTERNAL_ASSERT_POINTER (mkHandler (TVectorPtr (TScalar SInt)) 100)
    (mkWorld (mkUSqlStatement [] [] [])
             (<[100%Z := OVector (mkUVector 200%Z 1)]> (<[200%Z := OPointer 0%Z]> ∅)))
  = (mkWorld (mkUSqlStatement [] [] [])
             (<[100%Z := OVector (mkUVector 200%Z 1)]> (<[200%Z := OPointer 0%Z]> ∅)),
     Abort AssertionFailed).
Proof. reflexivity. Qed.

(** The scenario of the specification: [into(x, y)], two rows; [nextRow]
    returns true twice, then false as often as it is called. *)
Lemma nextRow_exhausted_witness :
  rows (pstmt fetched_all) = [] ∧
  nextRow_times 3 fetched_all = (fetched_all, Done (replicate 3 false)).
Proof.
  split; [reflexivity|].
  apply (nextRow_exhausted 3 fetched_all). reflexivity.
Defined.

(** In that scenario [x] and [y] hold the values of the second row, the last
    one fetched. *)
Example into_two_rows :
  nextRow_times 2
    (manual_bindResult U_INTERNAL_ASSERT_POINTER two_arguments two_rows).1
    = (fetched_all, Done [true; true]) ∧
  mem fetched_all !! 4096%Z = Some (OValue (VInt 2)) ∧
  mem fetched_all !! 4097%Z = Some (OValue (VText "two")).
Proof. repeat split; vm_compute; reflexivity. Qed.

(** An empty plug-in table: no driver named [nosuchdb] can be loaded. *)
Lemma unknown_driver_terminates_witness :
  Session.plugins (Session.mkProcess ∅ []) !! "nosuchdb" = None ∧
  Session.UOrmSession_ctor "nosuchdb" "" (Session.mkProcess ∅ [])
  = Session.Exited (Session.mkProcess ∅ []) ∧
  Session.andThen (Session.UOrmSession_ctor "nosuchdb" "")
    (λ s, Session.query s "SELECT 1") (Session.mkProcess ∅ [])
  = Session.Exited (Session.mkProcess ∅ []).
Proof.
  split; [reflexivity|].
  apply (unknown_driver_terminates "nosuchdb" "" (λ s, Session.query s "SELECT 1")).
  reflexivity.
Defined.

(** * Further properties of the binding layer *)

(** ** Invariants carried through a call *)

Section Holds.

Context (R : world → world → Prop) (E : failure → Prop).
Context `{!Reflexive R} `{!Transitive R}.

Lemma holds_ret {A : Type} (a : A) : holds R E (mret a).
Proof. intros w. split; [reflexivity | intros e [=]]. Qed.

Lemma holds_fail {A : Type} (e : failure) : E e → holds R E (fail (A:=A) e).
Proof. intros He w. split; [reflexivity | by intros e' [= <-]]. Qed.

Lemma holds_bind {A B : Type} (m : M A) (k : A → M B) :
  holds R E m → (∀ a, holds R E (k a)) → holds R E (m ≫= k).
Proof.
  intros Hm Hk w. destruct (Hm w) as [HR HE]. rewrite bind_run.
  destruct (m w) as [w' [a|e]]; simpl in *.
  - destruct (Hk a w') as [HR' HE']. split; [by etrans | done].
  - split; [done|]. intros e' [= <-]. by apply HE.
Qed.

Lemma holds_deref (p : pointer) : E MemoryFault → holds R E (deref p).
Proof.
  intros He. unfold deref.
  destruct (decide _); [by apply holds_fail | apply holds_ret].
Qed.

Lemma holds_load_vector (p : pointer) : E MemoryFault → holds R E (load_vector p).
Proof.
  intros He w. unfold load_vector.
  destruct (mem w !! p) as [[]|]; simpl; (split; [reflexivity|]);
    by intros e [= <-].
Qed.

Lemma holds_load_pointer (p : pointer) : E MemoryFault → holds R E (load_pointer p).
Proof.
  intros He w. unfold load_pointer.
  destruct (mem w !! p) as [[]|]; simpl; (split; [reflexivity|]);
    by intros e [= <-].
Qed.

Lemma holds_for_ptr (body : pointer → M unit) (ptr : pointer) (n : nat) :
  E MemoryFault → (∀ q, holds R E (body q)) → holds R E (for_ptr body ptr n).
Proof.
  intros He Hbody. revert ptr. induction n as [|n IH]; intros ptr; simpl.
  - apply holds_ret.
  - apply holds_bind; [by apply holds_load_pointer|]. intros q.
    apply holds_bind; [apply Hbody | intros _; apply IH].
Qed.

Lemma holds_uvector_each (elem : pointer → M unit) (p : pointer) :
  E MemoryFault → (∀ q, holds R E (elem q)) → holds R E (uvector_each elem p).
Proof.
  intros He Helem. apply holds_bind; [by apply holds_load_vector|].
  intros v. by apply holds_for_ptr.
Qed.

Lemma holds_element_val (T : ctype) (q : pointer) :
  E MemoryFault → holds R E (element_val T q).
Proof.
  intros He. destruct T; simpl; try apply holds_ret. by apply holds_load_pointer.
Qed.

Lemma holds_with_temp (assert_pointer : pointer → bool) (T : ctype)
    (val : pointer) (body : UOrmTypeHandler → M unit) :
  E AssertionFailed → (∀ t, holds R E (body t)) →
  holds R E (with_temp assert_pointer T val body).
Proof.
  intros He Hbody. apply holds_bind.
  - destruct T; simpl; unfold UOrmTypeHandler_Base;
      (destruct (assert_pointer _); [apply holds_ret | by apply holds_fail]).
  - intros t. apply holds_bind; [apply Hbody|]. intros _.
    unfold UOrmTypeHandler_Base_dtor.
    destruct (assert_pointer _); [apply holds_ret | by apply holds_fail].
Qed.

End Holds.

#[local] Instance grows_params_refl : Reflexive grows_params.
Proof. intros w. by repeat split. Qed.

#[local] Instance grows_params_trans : Transitive grows_params.
Proof.
  intros w1 w2 w3 (Hp & Hr & Hw & Hm) (Hp' & Hr' & Hw' & Hm').
  repeat split; [by etrans | congruence..].
Qed.

#[local] Instance grows_results_refl : Reflexive grows_results.
Proof. intros w. by repeat split. Qed.

#[local] Instance grows_results_trans : Transitive grows_results.
Proof.
  intros w1 w2 w3 (Hp & Hr & Hw & Hm) (Hp' & Hr' & Hw' & Hm').
  repeat split; [by etrans | congruence..].
Qed.

(** Applying a lemma of section [Holds] at a relation known to be a
    preorder. *)
Ltac hold lem := apply lem; try apply _.

Lemma holds_stmt_bindParam (E : failure → Prop) (c : param_call) :
  holds grows_params E (stmt_bindParam c).
Proof.
  intros w. split; [|intros e [=]].
  repeat split; simpl. by apply prefix_app_r.
Qed.

Lemma holds_stmt_bindResult (E : failure → Prop) (c : result_call) :
  holds grows_results E (stmt_bindResult c).
Proof.
  intros w. split; [|intros e [=]].
  repeat split; simpl. by apply prefix_app_r.
Qed.

Section Frames.

Variable assert_pointer : pointer → bool.

(** Binding a parameter through an adapter of the header only adds to the
    parameter table and never ends in a usage error. *)
Lemma bindParam_at_holds (T : ctype) :
  builtin T = true →
  ∀ p, holds grows_params not_usage (bindParam_at assert_pointer T p).
Proof.
  induction T as [ |s| | | | | |T IH| |c]; intros HT p; simpl in *;
    try discriminate;
    unfold null_bindParam, scalar_bindParam, cstring_bindParam,
      UStringRep_bindParam, UString_bindParam, istream_bindParam, tm_bindParam;
    try (apply holds_stmt_bindParam);
    try (hold holds_bind;
         [hold holds_deref; exact I | intros; apply holds_stmt_bindParam]).
  - hold holds_uvector_each; [exact I|]. intros q.
    hold holds_bind; [hold holds_element_val; exact I|]. intros val.
    hold holds_with_temp; [exact I|]. intros t. by apply IH.
  - hold holds_uvector_each; [exact I|]. intros q.
    hold holds_with_temp; [exact I|]. intros t.
    hold holds_bind; [hold holds_deref; exact I | intros; apply holds_stmt_bindParam].
Qed.

(** Binding a result through an adapter of the header only adds to the
    result table. *)
Lemma bindResult_at_holds (T : ctype) :
  builtin T = true →
  ∀ p, holds grows_results (λ _, True) (bindResult_at assert_pointer T p).
Proof.
  induction T as [ |s| | | | | |T IH| |c]; intros HT p; simpl in *;
    try discriminate;
    unfold null_bindResult, scalar_bindResult, cstring_bindResult,
      UStringRep_bindResult, UString_bindResult, istream_bindResult,
      tm_bindResult, UVectorUString_bindResult, U_ERROR;
    try (hold holds_ret);
    try (hold holds_fail; exact I);
    try (hold holds_bind;
         [hold holds_deref; exact I | intros; apply holds_stmt_bindResult]).
  hold holds_uvector_each; [exact I|]. intros q.
  hold holds_bind; [hold holds_element_val; exact I|]. intros val.
  hold holds_with_temp; [exact I|]. intros t. by apply IH.
Qed.

Lemma holds_ext {A : Type} (R : world → world → Prop) (E : failure → Prop)
    (m m' : M A) :
  (∀ w, m w = m' w) → holds R E m' → holds R E m.
Proof. intros Heq Hm w. rewrite Heq. apply Hm. Qed.

Lemma bindParam_of_holds (r : argument) :
  builtin (arg_type r) = true →
  holds grows_params not_usage (bindParam_of assert_pointer r).
Proof.
  intros Hr.
  apply (holds_ext _ _ _ (with_temp assert_pointer (arg_type r) (arg_ref r)
           (λ t, bindParam_at assert_pointer (arg_type r) (pval t)))).
  - intros w.
    apply (with_temp_type assert_pointer _ _ (bindParam_at assert_pointer)).
  - hold holds_with_temp; [exact I|]. intros t. by apply bindParam_at_holds.
Qed.

Lemma bindResult_of_holds (r : argument) :
  builtin (arg_type r) = true →
  holds grows_results (λ _, True) (bindResult_of assert_pointer r).
Proof.
  intros Hr.
  apply (holds_ext _ _ _ (with_temp assert_pointer (arg_type r) (arg_ref r)
           (λ t, bindResult_at assert_pointer (arg_type r) (pval t)))).
  - intros w.
    apply (with_temp_type assert_pointer _ _ (bindResult_at assert_pointer)).
  - hold holds_with_temp; [exact I|]. intros t. by apply bindResult_at_holds.
Qed.

Lemma manual_bindParam_holds (rs : list argument) :
  Forall (λ r, builtin (arg_type r) = true) rs →
  holds grows_params not_usage (manual_bindParam assert_pointer rs).
Proof.
  induction 1 as [|r rs Hr _ IH]; simpl; [hold holds_ret|].
  hold holds_bind; [by apply bindParam_of_holds | by intros _].
Qed.

Lemma manual_bindResult_holds (rs : list argument) :
  Forall (λ r, builtin (arg_type r) = true) rs →
  holds grows_results (λ _, True) (manual_bindResult assert_pointer rs).
Proof.
  induction 1 as [|r rs Hr _ IH]; simpl; [hold holds_ret|].
  hold holds_bind; [by apply bindResult_of_holds | by intros _].
Qed.

(** ** What [use] and [into] resolve to *)

Lemma use_overload_inv (rs : list argument) (m : M unit) :
  use_overload assert_pointer rs = Some m →
  m = use_fold assert_pointer rs ∧ 1 ≤ length rs ≤ 20.
Proof.
  intros H.
  do 21 (destruct rs as [|? rs];
         [first [discriminate H
                | injection H as <-; split; [reflexivity | simpl; lia]]|]).
  discriminate H.
Qed.

Lemma into_overload_inv (rs : list argument) (m : M unit) :
  into_overload assert_pointer rs = Some m →
  m = into_fold assert_pointer rs ∧ 1 ≤ length rs ≤ 20.
Proof.
  intros H.
  do 21 (destruct rs as [|? rs];
         [first [discriminate H
                | injection H as <-; split; [reflexivity | simpl; lia]]|]).
  discriminate H.
Qed.

(** Whatever [use] resolves to runs like binding by hand. *)
Lemma use_inv (HAVE_CXX17 : bool) (rs : list argument) (m : M unit) :
  use assert_pointer HAVE_CXX17 rs = Some m →
  ∀ w, m w = manual_bindParam assert_pointer rs w.
Proof.
  intros H w. assert (m = use_fold assert_pointer rs) as ->.
  { unfold use in H. destruct HAVE_CXX17.
    - destruct (forallb is_rvalue rs); [by injection H | discriminate H].
    - destruct (forallb is_lvalue rs); [by apply use_overload_inv | discriminate H]. }
  apply comma_fold_bindParam.
Qed.

Lemma into_inv (HAVE_CXX17 : bool) (rs : list argument) (m : M unit) :
  into assert_pointer HAVE_CXX17 rs = Some m →
  ∀ w, m w = manual_bindResult assert_pointer rs w.
Proof.
  intros H w. assert (m = into_fold assert_pointer rs) as ->.
  { unfold into in H. destruct HAVE_CXX17.
    - destruct (forallb is_rvalue rs); [by injection H | discriminate H].
    - destruct (forallb is_lvalue rs); [by apply into_overload_inv | discriminate H]. }
  apply comma_fold_bindResult.
Qed.

End Frames.

(** ** Bindings of simple arguments *)

Lemma push_params_nil (w : world) : push_params [] w = w.
Proof. destruct w as [[ps rs rws] m]. unfold push_params. simpl. by rewrite app_nil_r. Qed.

Lemma push_results_nil (w : world) : push_results [] w = w.
Proof. destruct w as [[ps rs rws] m]. unfold push_results. simpl. by rewrite app_nil_r. Qed.

Lemma push_params_app (cs1 cs2 : list param_call) (w : world) :
  push_params cs2 (push_params cs1 w) = push_params (cs1 ++ cs2) w.
Proof. unfold push_params. simpl. by rewrite app_assoc. Qed.

Lemma push_results_app (cs1 cs2 : list result_call) (w : world) :
  push_results cs2 (push_results cs1 w) = push_results (cs1 ++ cs2) w.
Proof. unfold push_results. simpl. by rewrite app_assoc. Qed.

Lemma push_params_results (ps : list param_call) (rs : list result_call) (w : world) :
  push_results rs (push_params ps w) = push_params ps (push_results rs w).
Proof. reflexivity. Qed.

Lemma omap_lookup_total {A B : Type} (f : A → option B) (l : list A) (i : nat) (a : A) :
  Forall (λ x, is_Some (f x)) l → l !! i = Some a → omap f l !! i = f a.
Proof.
  intros Hl. revert i. induction Hl as [|x l [b Hb] _ IH]; intros i Hi; [done|].
  simpl. rewrite Hb. destruct i as [|i]; simpl in *.
  - by injection Hi as <-.
  - by apply IH.
Qed.

Lemma omap_length_total {A B : Type} (f : A → option B) (l : list A) :
  Forall (λ x, is_Some (f x)) l → length (omap f l) = length l.
Proof.
  induction 1 as [|x l [b Hb] _ IH]; [done|]. simpl. rewrite Hb. simpl. by f_equal.
Qed.

Lemma omap_length_le {A B : Type} (f : A → option B) (l : list A) :
  length (omap f l) ≤ length l.
Proof.
  induction l as [|x l IH]; [done|].
  change (omap f (x :: l))
    with (match f x with Some y => y :: omap f l | None => omap f l end).
  destruct (f x); cbn [length]; lia.
Qed.

Lemma simple_param_call (r : argument) :
  simple (arg_type r) = true → is_Some (param_call_of r).
Proof. destruct r as [c [] p]; simpl; by eauto. Qed.

Section Accepting.

Variable assert_pointer : pointer → bool.

(** The assertion macro lets every non-null pointer through, as the macro
    of a debug build and the empty macro of a release build both do. *)
Hypothesis accepts : ∀ p, p ≠ U_NULLPTR → assert_pointer p = true.

Ltac run_temp Hp :=
  unfold bindParam_of, bindResult_of, with_temp, UOrmTypeHandler_ctor,
    UOrmTypeHandler_Base, UOrmTypeHandler_Base_dtor, bindParam, bindResult,
    UOrmTypeHandler_bindParam, UOrmTypeHandler_bindResult;
  cbn [arg_type arg_ref]; rewrite (accepts _ Hp); rewrite !bind_run;
  cbn [mret M_ret handler_type pval bindParam_at bindResult_at];
  unfold scalar_bindParam, cstring_bindParam, UStringRep_bindParam,
    UString_bindParam, istream_bindParam, tm_bindParam,
    scalar_bindResult, cstring_bindResult, UStringRep_bindResult,
    UString_bindResult, istream_bindResult, tm_bindResult, deref;
  try (destruct (decide _) as [?|_]; [done|]);
  rewrite ?bind_run; cbn [mret M_ret stmt_bindParam stmt_bindResult pval];
  rewrite ?(accepts _ Hp).

Lemma bindParam_of_simple (r : argument) (w : world) :
  simple_arg r →
  bindParam_of assert_pointer r w = (push_params (omap param_call_of [r]) w, Done ()).
Proof.
  destruct r as [c T p]. intros [Hs Hp]. simpl in Hs, Hp.
  destruct T; try discriminate Hs; run_temp Hp; reflexivity.
Qed.

Lemma bindResult_of_quiet (r : argument) (w : world) :
  quiet_arg r →
  bindResult_of assert_pointer r w = (push_results (omap result_call_of [r]) w, Done ()).
Proof.
  destruct r as [c T p]. intros [[Hs Hp] Hne]. simpl in Hs, Hp, Hne.
  destruct T; try discriminate Hs; try done; run_temp Hp;
    unfold push_results; cbn [omap]; rewrite ?app_nil_r;
    by destruct w as [[] ?].
Qed.

Lemma manual_bindParam_simple (rs : list argument) (w : world) :
  Forall simple_arg rs →
  manual_bindParam assert_pointer rs w
  = (push_params (omap param_call_of rs) w, Done ()).
Proof.
  intros Hrs. revert w. induction Hrs as [|r rs Hr _ IH]; intros w.
  - simpl. by rewrite push_params_nil.
  - cbn [manual_bindParam]. rewrite bind_run, (bindParam_of_simple r w Hr), IH.
    rewrite push_params_app. do 2 f_equal.
    simpl. by destruct (param_call_of r).
Qed.

Lemma manual_bindResult_quiet (rs : list argument) (w : world) :
  Forall quiet_arg rs →
  manual_bindResult assert_pointer rs w
  = (push_results (omap result_call_of rs) w, Done ()).
Proof.
  intros Hrs. revert w. induction Hrs as [|r rs Hr _ IH]; intros w.
  - simpl. by rewrite push_results_nil.
  - cbn [manual_bindResult]. rewrite bind_run, (bindResult_of_quiet r w Hr), IH.
    rewrite push_results_app. do 2 f_equal.
    simpl. by destruct (result_call_of r).
Qed.

(** Binding by hand stops at the first statement that fails. *)
Lemma manual_bindParam_app (rs1 rs2 : list argument) (w : world) :
  manual_bindParam assert_pointer (rs1 ++ rs2) w
  = (manual_bindParam assert_pointer rs1;; manual_bindParam assert_pointer rs2) w.
Proof.
  revert w. induction rs1 as [|r rs1 IH]; intros w; [reflexivity|].
  cbn [app manual_bindParam]. rewrite !bind_run.
  destruct (bindParam_of assert_pointer r w) as [w' [[]|e]]; [|reflexivity].
  rewrite IH. by rewrite bind_run.
Qed.

Lemma manual_bindResult_app (rs1 rs2 : list argument) (w : world) :
  manual_bindResult assert_pointer (rs1 ++ rs2) w
  = (manual_bindResult assert_pointer rs1;; manual_bindResult assert_pointer rs2) w.
Proof.
  revert w. induction rs1 as [|r rs1 IH]; intros w; [reflexivity|].
  cbn [app manual_bindResult]. rewrite !bind_run.
  destruct (bindResult_of assert_pointer r w) as [w' [[]|e]]; [|reflexivity].
  rewrite IH. by rewrite bind_run.
Qed.

(** X1: when every argument of [use] is of a simple type and refers to a
    variable (no null pointer), the call returns normally having added one
    parameter binding per argument, in argument order, after the bindings
    already there: argument [i] lands in slot [k + i] when [k] slots were
    taken; result bindings, rows and memory are untouched. *)
Theorem use_appends_params (HAVE_CXX17 : bool) (rs : list argument)
    (m : M unit) (w : world) :
  use assert_pointer HAVE_CXX17 rs = Some m →
  Forall simple_arg rs →
  m w = (push_params (omap param_call_of rs) w, Done ()) ∧
  length (params (pstmt (m w).1)) = length (params (pstmt w)) + length rs ∧
  ∀ i r, rs !! i = Some r →
         params (pstmt (m w).1) !! (length (params (pstmt w)) + i)
         = param_call_of r.
Proof.
  intros Hm Hrs.
  assert (Forall (λ r, is_Some (param_call_of r)) rs) as Hsome.
  { eapply Forall_impl; [exact Hrs|]. intros r [Hs _]. by apply simple_param_call. }
  rewrite (use_inv _ _ _ _ Hm), (manual_bindParam_simple rs w Hrs).
  split; [reflexivity|]. cbn [fst push_params pstmt params]. split.
  - by rewrite length_app, omap_length_total.
  - intros i r Hi. rewrite lookup_app_r by lia.
    replace (length (params (pstmt w)) + i - length (params (pstmt w))) with i by lia.
    by apply omap_lookup_total.
Qed.

(** X2: when every argument of [into] is of a simple type other than
    [UStringRep] and refers to a variable, the call returns normally having
    added, in argument order, one result binding per argument of an
    arithmetic type or of type [UString], and none for the arguments of type
    [const char*], [istream] and [struct tm]; parameter bindings, rows and
    memory are untouched. *)
Theorem into_appends_results (HAVE_CXX17 : bool) (rs : list argument)
    (m : M unit) (w : world) :
  into assert_pointer HAVE_CXX17 rs = Some m →
  Forall quiet_arg rs →
  m w = (push_results (omap result_call_of rs) w, Done ()).
Proof.
  intros Hm Hrs.
  by rewrite (into_inv _ _ _ _ Hm), (manual_bindResult_quiet rs w Hrs).
Qed.

(** X3: an argument of [into] of type [const char*], [istream] or
    [struct tm] takes no result column: with such an argument in the list,
    the call returns normally but registers fewer result bindings than it has
    arguments. *)
Theorem into_silent_argument_takes_no_column (HAVE_CXX17 : bool)
    (rs : list argument) (m : M unit) (w : world) :
  into assert_pointer HAVE_CXX17 rs = Some m →
  Forall quiet_arg rs →
  Exists (λ r, arg_type r = TCString ∨ arg_type r = TIstream ∨ arg_type r = TTm) rs →
  (m w).2 = Done () ∧
  length (results (pstmt (m w).1)) < length (results (pstmt w)) + length rs.
Proof.
  intros Hm Hrs Hex.
  rewrite (into_inv _ _ _ _ Hm), (manual_bindResult_quiet rs w Hrs).
  split; [reflexivity|]. cbn [fst push_results pstmt results].
  rewrite length_app. apply Nat.add_lt_mono_l.
  clear Hm Hrs. induction Hex as [r rs Hr|r rs _ IH];
    change (omap result_call_of (r :: rs))
      with (match result_call_of r with
            | Some c => c :: omap result_call_of rs
            | None => omap result_call_of rs
            end).
  - assert (result_call_of r = None) as ->.
    { unfold result_call_of. by destruct Hr as [->|[->| ->]]. }
    pose proof (omap_length_le result_call_of rs). cbn [length]. lia.
  - destruct (result_call_of r); cbn [length]; lia.
Qed.

(** X4: [into] stops at its first argument of type [UStringRep]: the
    arguments before it are bound as results, the call ends in a usage
    error, and nothing after that argument is bound. *)
Theorem into_stops_at_first_UStringRep (HAVE_CXX17 : bool)
    (pre post : list argument) (c : category) (p : pointer) (m : M unit)
    (w : world) :
  into assert_pointer HAVE_CXX17 (pre ++ mkArg c TUStringRep p :: post) = Some m →
  Forall quiet_arg pre →
  p ≠ U_NULLPTR →
  ∃ msg, m w = (push_results (omap result_call_of pre) w, Abort (UsageError msg)).
Proof.
  intros Hm Hpre Hp. eexists.
  rewrite (into_inv _ _ _ _ Hm), manual_bindResult_app, bind_run.
  rewrite (manual_bindResult_quiet pre w Hpre).
  cbn [manual_bindResult]. rewrite bind_run.
  unfold bindResult_of, with_temp, UOrmTypeHandler_ctor, UOrmTypeHandler_Base.
  cbn [arg_type arg_ref]. rewrite (accepts _ Hp). rewrite !bind_run.
  reflexivity.
Qed.

(** X5: with an assertion macro that rejects the null pointer, [use] stops at
    its first argument that is the NULL sentinel or is built over a null
    pointer: the simple arguments before it are bound, the assertion of the
    adapter's constructor fails, and nothing after that argument is bound. *)
Theorem use_stops_at_null_pointer (HAVE_CXX17 : bool)
    (pre post : list argument) (r : argument) (m : M unit) (w : world) :
  assert_pointer U_NULLPTR = false →
  use assert_pointer HAVE_CXX17 (pre ++ r :: post) = Some m →
  Forall simple_arg pre →
  arg_type r = TNull ∨ arg_ref r = U_NULLPTR →
  m w = (push_params (omap param_call_of pre) w, Abort AssertionFailed).
Proof.
  intros Hrej Hm Hpre Hr.
  rewrite (use_inv _ _ _ _ Hm), manual_bindParam_app, bind_run.
  rewrite (manual_bindParam_simple pre w Hpre).
  cbn [manual_bindParam]. rewrite bind_run.
  unfold bindParam_of, with_temp. rewrite bind_run.
  assert (∀ w', UOrmTypeHandler_ctor assert_pointer (arg_type r) (arg_ref r) w'
                = (w', Abort AssertionFailed)) as ->; [|reflexivity].
  intros w'. destruct r as [c T p]. simpl in *.
  destruct Hr as [->| ->]; [|destruct T]; simpl;
    unfold UOrmTypeHandler_Base; by rewrite Hrej.
Qed.

(** X17: for simple arguments, binding parameters and binding results do not
    interfere: [use] followed by [into] leaves the same statement as [into]
    followed by [use]. *)
Theorem use_into_commute (HAVE_CXX17 : bool) (ps rs : list argument)
    (mu mi : M unit) (w : world) :
  use assert_pointer HAVE_CXX17 ps = Some mu →
  into assert_pointer HAVE_CXX17 rs = Some mi →
  Forall simple_arg ps →
  Forall quiet_arg rs →
  (mu;; mi) w = (mi;; mu) w ∧ ((mu;; mi) w).2 = Done ().
Proof.
  intros Hu Hi Hps Hrs. rewrite !bind_run.
  rewrite (use_inv _ _ _ _ Hu), (into_inv _ _ _ _ Hi).
  rewrite (manual_bindParam_simple ps w Hps), (manual_bindResult_quiet rs w Hrs).
  rewrite (use_inv _ _ _ _ Hu), (into_inv _ _ _ _ Hi).
  rewrite manual_bindParam_simple, manual_bindResult_quiet by done.
  by rewrite push_params_results.
Qed.

End Accepting.

(** ** Whatever the assertion macro does *)

Section AnyMacro.

Variable assert_pointer : pointer → bool.

(** X6: binding arguments of the header's own types as parameters never ends
    in a usage error, whatever the pointers and the memory are: every adapter
    of the header supports [bindParam]; only [bindResult] can refuse a
    type. *)
Theorem use_never_usage_error (HAVE_CXX17 : bool) (rs : list argument)
    (m : M unit) (w : world) (msg : string) :
  use assert_pointer HAVE_CXX17 rs = Some m →
  Forall (λ r, builtin (arg_type r) = true) rs →
  (m w).2 ≠ Abort (UsageError msg).
Proof.
  intros Hm Hrs Hfail. rewrite (use_inv _ _ _ _ Hm) in Hfail.
  destruct (manual_bindParam_holds assert_pointer rs Hrs w) as [_ HE].
  exact (HE _ Hfail).
Qed.

(** X7: [use] on arguments of the header's own types only ever adds to the
    parameter table, whether it returns or fails on the way: the parameter
    bindings made before keep their slots, and the result bindings, the
    pending rows and the caller's memory are as before. *)
Theorem use_only_grows_params (HAVE_CXX17 : bool) (rs : list argument)
    (m : M unit) (w : world) :
  use assert_pointer HAVE_CXX17 rs = Some m →
  Forall (λ r, builtin (arg_type r) = true) rs →
  grows_params w (m w).1.
Proof.
  intros Hm Hrs. rewrite (use_inv _ _ _ _ Hm).
  by destruct (manual_bindParam_holds assert_pointer rs Hrs w).
Qed.

(** X8: [into] on arguments of the header's own types only ever adds to the
    result table, whether it returns or fails on the way: the result bindings
    made before keep their slots, and the parameter bindings, the pending
    rows and the caller's memory are as before; in particular registering an
    output variable does not write it. *)
Theorem into_only_grows_results (HAVE_CXX17 : bool) (rs : list argument)
    (m : M unit) (w : world) :
  into assert_pointer HAVE_CXX17 rs = Some m →
  Forall (λ r, builtin (arg_type r) = true) rs →
  grows_results w (m w).1.
Proof.
  intros Hm Hrs. rewrite (into_inv _ _ _ _ Hm).
  by destruct (manual_bindResult_holds assert_pointer rs Hrs w).
Qed.

(** X9: one call of [use] on a list of arguments does what two calls do on
    the two halves of the list, for arguments of any type, failures
    included. *)
Theorem use_app (HAVE_CXX17 : bool) (rs1 rs2 : list argument)
    (m m1 m2 : M unit) (w : world) :
  use assert_pointer HAVE_CXX17 rs1 = Some m1 →
  use assert_pointer HAVE_CXX17 rs2 = Some m2 →
  use assert_pointer HAVE_CXX17 (rs1 ++ rs2) = Some m →
  m w = (m1;; m2) w.
Proof.
  intros H1 H2 H. rewrite (use_inv _ _ _ _ H), manual_bindParam_app, !bind_run.
  rewrite (use_inv _ _ _ _ H1).
  destruct (manual_bindParam assert_pointer rs1 w) as [w' [[]|e]]; [|reflexivity].
  by rewrite (use_inv _ _ _ _ H2).
Qed.

(** X10: one call of [into] on a list of arguments does what two calls do on
    the two halves of the list, for arguments of any type, failures
    included. *)
Theorem into_app (HAVE_CXX17 : bool) (rs1 rs2 : list argument)
    (m m1 m2 : M unit) (w : world) :
  into assert_pointer HAVE_CXX17 rs1 = Some m1 →
  into assert_pointer HAVE_CXX17 rs2 = Some m2 →
  into assert_pointer HAVE_CXX17 (rs1 ++ rs2) = Some m →
  m w = (m1;; m2) w.
Proof.
  intros H1 H2 H. rewrite (into_inv _ _ _ _ H), manual_bindResult_app, !bind_run.
  rewrite (into_inv _ _ _ _ H1).
  destruct (manual_bindResult assert_pointer rs1 w) as [w' [[]|e]]; [|reflexivity].
  by rewrite (into_inv _ _ _ _ H2).
Qed.

(** X13: the assertion in the destructor of a temporary adapter never fires:
    constructing the adapter, running a member on it and destroying it ends
    as constructing it and running the member does. *)
Theorem temp_dtor_never_fails (T : ctype) (val : pointer)
    (body : UOrmTypeHandler → M unit) (w : world) :
  with_temp assert_pointer T val body w
  = (UOrmTypeHandler_ctor assert_pointer T val ≫= body) w.
Proof.
  unfold with_temp. rewrite !bind_run.
  assert (∃ ptr, UOrmTypeHandler_ctor assert_pointer T val
                 = UOrmTypeHandler_Base assert_pointer T ptr) as [ptr ->].
  { destruct T; eexists; reflexivity. }
  unfold UOrmTypeHandler_Base.
  destruct (assert_pointer ptr) eqn:Hptr; [|reflexivity].
  cbn [mret M_ret]. rewrite bind_run.
  destruct (body (mkHandler T ptr) w) as [w' [[]|e]]; [|reflexivity].
  unfold UOrmTypeHandler_Base_dtor. cbn [pval]. by rewrite Hptr.
Qed.

(** X14: [use] on the NULL sentinel binds one SQL NULL exactly when the
    assertion macro lets the null pointer through; otherwise the adapter's
    constructor fails its assertion and nothing is bound. *)
Theorem use_null_sentinel (HAVE_CXX17 : bool) (c : category) (p : pointer)
    (m : M unit) (w : world) :
  use assert_pointer HAVE_CXX17 [mkArg c TNull p] = Some m →
  m w = if assert_pointer U_NULLPTR then (push_params [PNull] w, Done ())
        else (w, Abort AssertionFailed).
Proof.
  intros Hm. rewrite (use_inv _ _ _ _ Hm). cbn [manual_bindParam].
  rewrite bind_unit_ret. unfold bindParam_of, with_temp. rewrite bind_run.
  cbn [arg_type arg_ref UOrmTypeHandler_ctor]. unfold UOrmTypeHandler_Base.
  destruct (assert_pointer U_NULLPTR) eqn:Hnull; [|reflexivity].
  cbn [mret M_ret]. rewrite bind_run.
  unfold bindParam, UOrmTypeHandler_bindParam, UOrmTypeHandler_Base_dtor.
  cbn [handler_type pval bindParam_at]. by rewrite Hnull.
Qed.

(** X16: on a vector with no element in use the vector adapters bind nothing
    and return normally, for every element type, without reading the array
    (which may be absent): the vector of pointers for [bindParam] and
    [bindResult], the vector of [UString] for [bindParam]. *)
Theorem empty_vector_binds_nothing (T : ctype) (p : pointer) (v : UVector)
    (w : world) :
  mem w !! p = Some (OVector v) →
  _length v = 0 →
  bindParam assert_pointer (mkHandler (TVectorPtr T) p) w = (w, Done ()) ∧
  bindResult assert_pointer (mkHandler (TVectorPtr T) p) w = (w, Done ()) ∧
  bindParam assert_pointer (mkHandler TVectorUString p) w = (w, Done ()).
Proof.
  intros Hv Hlen.
  unfold bindParam, bindResult, UOrmTypeHandler_bindParam,
    UOrmTypeHandler_bindResult.
  cbn [handler_type pval bindParam_at bindResult_at].
  unfold uvector_each. rewrite !bind_run. unfold load_vector.
  rewrite Hv, Hlen. by repeat split.
Qed.

End AnyMacro.

(** ** Vectors of simple elements *)

Lemma simple_builtin (T : ctype) : simple T = true → builtin T = true.
Proof. by destruct T. Qed.

Lemma omap_param_call_UStringRep (qs : list pointer) :
  omap param_call_of (map (mkArg Lvalue TUStringRep) qs) = map PUStringRep qs.
Proof. induction qs as [|q qs IH]; [done|]. simpl. f_equal. exact IH. Qed.

(** For every element type but [const char*] the elements as arguments are
    the element pointers themselves, whatever the memory holds. *)
Lemma element_args_by_reference (m : gmap Z object) (T : ctype)
    (qs : list pointer) :
  T ≠ TCString → element_args m T qs = Some (map (mkArg Lvalue T) qs).
Proof.
  intros HT. induction qs as [|q qs IH]; [done|].
  simpl. rewrite IH. by destruct T.
Qed.

Lemma element_args_typed (m : gmap Z object) (T : ctype) (qs : list pointer) :
  ∀ rs, element_args m T qs = Some rs →
        length rs = length qs ∧ Forall (λ r, arg_type r = T) rs.
Proof.
  induction qs as [|q qs IH]; intros rs Hrs; simpl in Hrs.
  - by injection Hrs as <-.
  - destruct (element_arg m T q) as [r|] eqn:Hr; [|discriminate Hrs].
    destruct (element_args m T qs) as [rs'|]; [|discriminate Hrs].
    injection Hrs as <-. destruct (IH rs' eq_refl) as [Hlen Hty].
    split; [simpl; by f_equal|]. constructor; [|done].
    destruct T; simpl in Hr; try (by injection Hr as <-).
    destruct (m !! q) as [[| |s]|]; try discriminate Hr. by injection Hr as <-.
Qed.

Section VectorsOfSimple.

Variable assert_pointer : pointer → bool.
Hypothesis accepts : ∀ p, p ≠ U_NULLPTR → assert_pointer p = true.

(** X15: on a vector whose slots hold the element pointers [qs], of a simple
    element type, whose elements as arguments [rs] (for [const char*] the
    strings stored in the elements) are over non-null pointers, [bindParam]
    of the adapter for a vector of pointers returns normally having added
    one parameter binding per element, first to last, after the bindings
    already there (a list of values for an IN clause grows the parameter
    table by the length of the vector), and [bindResult] adds the result
    bindings of the elements when the element type is not [UStringRep]; the
    adapter for a vector of [UString] adds one [UStringRep] binding per
    element when no element pointer is null. *)
Theorem vector_binds_simple_elements (T : ctype) (p : pointer)
    (qs : list pointer) (rs : list argument) (w : world) :
  simple T = true →
  vector_at (mem w) p qs →
  element_args (mem w) T qs = Some rs →
  Forall simple_arg rs →
  bindParam assert_pointer (mkHandler (TVectorPtr T) p) w
    = (push_params (omap param_call_of rs) w, Done ()) ∧
  length (omap param_call_of rs) = length qs ∧
  (T ≠ TUStringRep →
   bindResult assert_pointer (mkHandler (TVectorPtr T) p) w
     = (push_results (omap result_call_of rs) w, Done ())) ∧
  (Forall (λ q, q ≠ U_NULLPTR) qs →
   bindParam assert_pointer (mkHandler TVectorUString p) w
     = (push_params (map PUStringRep qs) w, Done ())).
Proof.
  intros HT Hvec Hrs Hsimple.
  destruct (element_args_typed _ _ _ _ Hrs) as [Hlen Hty].
  unfold bindParam, bindResult, UOrmTypeHandler_bindParam,
    UOrmTypeHandler_bindResult.
  cbn [handler_type pval bindParam_at bindResult_at].
  split; [|split; [|split]].
  - rewrite (uvector_each_foldr _ p qs w); [| |done].
    + rewrite (foldr_element_bindParam assert_pointer T qs) with (rs:=rs);
        [by apply manual_bindParam_simple| |done].
      intros q. by apply builtin_keeps_mem, simple_builtin.
    + intros q. apply keeps_mem_bind; [apply keeps_mem_element_val|]. intros val.
      apply keeps_mem_with_temp. intros t.
      by apply builtin_keeps_mem, simple_builtin.
  - rewrite omap_length_total; [done|].
    eapply Forall_impl; [exact Hsimple|]. intros r [Hs _].
    by apply simple_param_call.
  - intros Hne. rewrite (uvector_each_foldr _ p qs w); [| |done].
    + rewrite (foldr_element_bindResult assert_pointer T qs) with (rs:=rs);
        [|intros q; by apply builtin_keeps_mem, simple_builtin|done].
      apply manual_bindResult_quiet; [done|].
      apply Forall_forall. intros r Hr. split.
      * by apply (proj1 (Forall_forall _ _) Hsimple).
      * by rewrite (proj1 (Forall_forall _ _) Hty r Hr).
    + intros q. apply keeps_mem_bind; [apply keeps_mem_element_val|]. intros val.
      apply keeps_mem_with_temp. intros t.
      by apply builtin_keeps_mem, simple_builtin.
  - intros Hnn.
    assert (Forall simple_arg (map (mkArg Lvalue TUStringRep) qs)) as Hrep.
    { apply Forall_fmap. eapply Forall_impl; [exact Hnn|]. by intros q Hq. }
    rewrite (uvector_each_foldr _ p qs w); [| |done].
    + rewrite (foldr_bindParam assert_pointer TUStringRep).
      rewrite manual_bindParam_simple by done.
      by rewrite omap_param_call_UStringRep.
    + intros q. apply keeps_mem_with_temp. intros t.
      apply (builtin_keeps_mem assert_pointer TUStringRep eq_refl).
Qed.

End VectorsOfSimple.

(** * Instances of the further properties *)

Lemma debug_macro_accepts (p : pointer) :
  p ≠ U_NULLPTR → U_INTERNAL_ASSERT_POINTER p = true.
Proof. intros Hp. unfold U_INTERNAL_ASSERT_POINTER. by apply bool_decide_eq_true_2. Qed.

Lemma three_arguments_simple : Forall simple_arg three_arguments.
Proof. by repeat constructor. Qed.

Lemma two_arguments_quiet : Forall quiet_arg two_arguments.
Proof. by repeat constructor. Qed.

Lemma two_arguments_simple : Forall simple_arg two_arguments.
Proof. by repeat constructor. Qed.

Lemma two_rvalues_quiet : Forall quiet_arg two_rvalues.
Proof. by repeat constructor. Qed.

Lemma builtin_arguments_builtin :
  Forall (λ r, builtin (arg_type r) = true) builtin_arguments.
Proof. by repeat constructor. Qed.

Lemma use_appends_params_witness :
  (∀ p, p ≠ U_NULLPTR → U_INTERNAL_ASSERT_POINTER p = true) ∧
  use U_INTERNAL_ASSERT_POINTER false three_arguments
    = Some (use_fold U_INTERNAL_ASSERT_POINTER three_arguments) ∧
  Forall simple_arg three_arguments ∧
  use_fold U_INTERNAL_ASSERT_POINTER three_arguments fresh
    = (push_params (omap param_call_of three_arguments) fresh, Done ()).
Proof.
  split; [exact debug_macro_accepts|]. split; [reflexivity|].
  split; [exact three_arguments_simple|].
  exact (proj1 (use_appends_params U_INTERNAL_ASSERT_POINTER debug_macro_accepts
                  false three_arguments _ fresh eq_refl three_arguments_simple)).
Defined.

Lemma into_appends_results_witness :
  (∀ p, p ≠ U_NULLPTR → U_INTERNAL_ASSERT_POINTER p = true) ∧
  into U_INTERNAL_ASSERT_POINTER true two_rvalues
    = Some (into_fold U_INTERNAL_ASSERT_POINTER two_rvalues) ∧
  Forall quiet_arg two_rvalues ∧
  into_fold U_INTERNAL_ASSERT_POINTER two_rvalues fresh
    = (push_results (omap result_call_of two_rvalues) fresh, Done ()).
Proof.
  split; [exact debug_macro_accepts|]. split; [reflexivity|].
  split; [exact two_rvalues_quiet|].
  exact (into_appends_results U_INTERNAL_ASSERT_POINTER debug_macro_accepts
           true two_rvalues _ fresh eq_refl two_rvalues_quiet).
Defined.

Lemma into_silent_argument_takes_no_column_witness :
  (∀ p, p ≠ U_NULLPTR → U_INTERNAL_ASSERT_POINTER p = true) ∧
  into U_INTERNAL_ASSERT_POINTER false three_outputs
    = Some (into_fold U_INTERNAL_ASSERT_POINTER three_outputs) ∧
  Forall quiet_arg three_outputs ∧
  Exists (λ r, arg_type r = TCString ∨ arg_type r = TIstream ∨ arg_type r = TTm)
    three_outputs ∧
  ((into_fold U_INTERNAL_ASSERT_POINTER three_outputs fresh).2
     = Done () ∧
   length (results (pstmt
     (into_fold U_INTERNAL_ASSERT_POINTER three_outputs fresh).1))
   < length (results (pstmt fresh)) + length three_outputs).
Proof.
  assert (Forall quiet_arg three_outputs) as Hq.
  { by repeat constructor. }
  assert (Exists (λ r, arg_type r = TCString ∨ arg_type r = TIstream ∨ arg_type r = TTm)
            three_outputs) as Hex.
  { left. right. right. reflexivity. }
  split; [exact debug_macro_accepts|]. split; [reflexivity|].
  split; [exact Hq|]. split; [exact Hex|].
  exact (into_silent_argument_takes_no_column U_INTERNAL_ASSERT_POINTER
           debug_macro_accepts false three_outputs _ fresh eq_refl Hq Hex).
Defined.

Lemma into_stops_at_first_UStringRep_witness :
  (∀ p, p ≠ U_NULLPTR → U_INTERNAL_ASSERT_POINTER p = true) ∧
  into U_INTERNAL_ASSERT_POINTER true
    (two_rvalues ++ mkArg Rvalue TUStringRep 5000 :: [mkArg Rvalue (TScalar SInt) 4099])
    = Some (into_fold U_INTERNAL_ASSERT_POINTER
              (two_rvalues ++ mkArg Rvalue TUStringRep 5000
                 :: [mkArg Rvalue (TScalar SInt) 4099])) ∧
  Forall quiet_arg two_rvalues ∧
  (5000 ≠ U_NULLPTR)%Z ∧
  ∃ msg,
    into_fold U_INTERNAL_ASSERT_POINTER
      (two_rvalues ++ mkArg Rvalue TUStringRep 5000
         :: [mkArg Rvalue (TScalar SInt) 4099]) fresh
    = (push_results (omap result_call_of two_rvalues) fresh,
       Abort (UsageError msg)).
Proof.
  split; [exact debug_macro_accepts|]. split; [reflexivity|].
  split; [exact two_rvalues_quiet|]. split; [done|].
  apply (into_stops_at_first_UStringRep U_INTERNAL_ASSERT_POINTER
           debug_macro_accepts true two_rvalues
           [mkArg Rvalue (TScalar SInt) 4099] Rvalue 5000
           _ fresh eq_refl two_rvalues_quiet).
  done.
Defined.

Lemma use_stops_at_null_pointer_witness :
  (∀ p, p ≠ U_NULLPTR → U_INTERNAL_ASSERT_POINTER p = true) ∧
  U_INTERNAL_ASSERT_POINTER U_NULLPTR = false ∧
  use U_INTERNAL_ASSERT_POINTER false
    (two_arguments ++ mkArg Lvalue TCString 0 :: [mkArg Lvalue (TScalar SInt) 4099])
    = Some (use_fold U_INTERNAL_ASSERT_POINTER
              (two_arguments ++ mkArg Lvalue TCString 0 :: [mkArg Lvalue (TScalar SInt) 4099])) ∧
  Forall simple_arg two_arguments ∧
  (arg_type (mkArg Lvalue TCString 0) = TNull ∨ arg_ref (mkArg Lvalue TCString 0) = U_NULLPTR) ∧
  use_fold U_INTERNAL_ASSERT_POINTER
    (two_arguments ++ mkArg Lvalue TCString 0 :: [mkArg Lvalue (TScalar SInt) 4099]) fresh
  = (push_params (omap param_call_of two_arguments) fresh, Abort AssertionFailed).
Proof.
  split; [exact debug_macro_accepts|]. split; [reflexivity|].
  split; [reflexivity|]. split; [exact two_arguments_simple|].
  split; [by right|].
  apply (use_stops_at_null_pointer U_INTERNAL_ASSERT_POINTER debug_macro_accepts
           false two_arguments [mkArg Lvalue (TScalar SInt) 4099] (mkArg Lvalue TCString 0)
           _ fresh eq_refl eq_refl two_arguments_simple).
  by right.
Defined.

Lemma use_into_commute_witness :
  (∀ p, p ≠ U_NULLPTR → U_INTERNAL_ASSERT_POINTER p = true) ∧
  use U_INTERNAL_ASSERT_POINTER false three_arguments
    = Some (use_fold U_INTERNAL_ASSERT_POINTER three_arguments) ∧
  into U_INTERNAL_ASSERT_POINTER false two_arguments
    = Some (into_fold U_INTERNAL_ASSERT_POINTER two_arguments) ∧
  Forall simple_arg three_arguments ∧
  Forall quiet_arg two_arguments ∧
  (use_fold U_INTERNAL_ASSERT_POINTER three_arguments;;
   into_fold U_INTERNAL_ASSERT_POINTER two_arguments) fresh
  = (into_fold U_INTERNAL_ASSERT_POINTER two_arguments;;
     use_fold U_INTERNAL_ASSERT_POINTER three_arguments) fresh.
Proof.
  split; [exact debug_macro_accepts|]. split; [reflexivity|].
  split; [reflexivity|]. split; [exact three_arguments_simple|].
  split; [exact two_arguments_quiet|].
  exact (proj1 (use_into_commute U_INTERNAL_ASSERT_POINTER debug_macro_accepts
                  false three_arguments two_arguments _ _ fresh eq_refl eq_refl
                  three_arguments_simple two_arguments_quiet)).
Defined.

Lemma use_never_usage_error_witness :
  use U_INTERNAL_ASSERT_POINTER false builtin_arguments
    = Some (use_fold U_INTERNAL_ASSERT_POINTER builtin_arguments) ∧
  Forall (λ r, builtin (arg_type r) = true) builtin_arguments ∧
  (use_fold U_INTERNAL_ASSERT_POINTER builtin_arguments with_vector).2
    ≠ Abort (UsageError "none").
Proof.
  split; [reflexivity|]. split; [exact builtin_arguments_builtin|].
  exact (use_never_usage_error U_INTERNAL_ASSERT_POINTER false builtin_arguments
           _ with_vector "none" eq_refl builtin_arguments_builtin).
Defined.

Lemma use_only_grows_params_witness :
  use U_INTERNAL_ASSERT_POINTER false builtin_arguments
    = Some (use_fold U_INTERNAL_ASSERT_POINTER builtin_arguments) ∧
  Forall (λ r, builtin (arg_type r) = true) builtin_arguments ∧
  grows_params with_vector
    (use_fold U_INTERNAL_ASSERT_POINTER builtin_arguments with_vector).1.
Proof.
  split; [reflexivity|]. split; [exact builtin_arguments_builtin|].
  exact (use_only_grows_params U_INTERNAL_ASSERT_POINTER false builtin_arguments
           _ with_vector eq_refl builtin_arguments_builtin).
Defined.

Lemma into_only_grows_results_witness :
  into U_INTERNAL_ASSERT_POINTER false builtin_arguments
    = Some (into_fold U_INTERNAL_ASSERT_POINTER builtin_arguments) ∧
  Forall (λ r, builtin (arg_type r) = true) builtin_arguments ∧
  grows_results with_vector
    (into_fold U_INTERNAL_ASSERT_POINTER builtin_arguments with_vector).1.
Proof.
  split; [reflexivity|]. split; [exact builtin_arguments_builtin|].
  exact (into_only_grows_results U_INTERNAL_ASSERT_POINTER false builtin_arguments
           _ with_vector eq_refl builtin_arguments_builtin).
Defined.

Lemma use_app_witness :
  use U_INTERNAL_ASSERT_POINTER false three_arguments
    = Some (use_fold U_INTERNAL_ASSERT_POINTER three_arguments) ∧
  use U_INTERNAL_ASSERT_POINTER false builtin_arguments
    = Some (use_fold U_INTERNAL_ASSERT_POINTER builtin_arguments) ∧
  use U_INTERNAL_ASSERT_POINTER false (three_arguments ++ builtin_arguments)
    = Some (use_fold U_INTERNAL_ASSERT_POINTER (three_arguments ++ builtin_arguments)) ∧
  use_fold U_INTERNAL_ASSERT_POINTER (three_arguments ++ builtin_arguments) with_vector
  = (use_fold U_INTERNAL_ASSERT_POINTER three_arguments;;
     use_fold U_INTERNAL_ASSERT_POINTER builtin_arguments) with_vector.
Proof.
  split; [reflexivity|]. split; [reflexivity|]. split; [reflexivity|].
  exact (use_app U_INTERNAL_ASSERT_POINTER false three_arguments builtin_arguments
           _ _ _ with_vector eq_refl eq_refl eq_refl).
Defined.

Lemma into_app_witness :
  into U_INTERNAL_ASSERT_POINTER false two_arguments
    = Some (into_fold U_INTERNAL_ASSERT_POINTER two_arguments) ∧
  into U_INTERNAL_ASSERT_POINTER false builtin_arguments
    = Some (into_fold U_INTERNAL_ASSERT_POINTER builtin_arguments) ∧
  into U_INTERNAL_ASSERT_POINTER false (two_arguments ++ builtin_arguments)
    = Some (into_fold U_INTERNAL_ASSERT_POINTER (two_arguments ++ builtin_arguments)) ∧
  into_fold U_INTERNAL_ASSERT_POINTER (two_arguments ++ builtin_arguments) with_vector
  = (into_fold U_INTERNAL_ASSERT_POINTER two_arguments;;
     into_fold U_INTERNAL_ASSERT_POINTER builtin_arguments) with_vector.
Proof.
  split; [reflexivity|]. split; [reflexivity|]. split; [reflexivity|].
  exact (into_app U_INTERNAL_ASSERT_POINTER false two_arguments builtin_arguments
           _ _ _ with_vector eq_refl eq_refl eq_refl).
Defined.

(** In a build whose assertion macro is empty the NULL sentinel binds. *)
Lemma use_null_sentinel_witness :
  use (λ _, true) false [mkArg Lvalue TNull 0]
    = Some (use_fold (λ _, true) [mkArg Lvalue TNull 0]) ∧
  use_fold (λ _, true) [mkArg Lvalue TNull 0] fresh
    = (push_params [PNull] fresh, Done ()).
Proof.
  split; [reflexivity|].
  exact (use_null_sentinel (λ _, true) false Lvalue 0 _ fresh eq_refl).
Defined.

Lemma vector_binds_simple_elements_witness :
  (∀ p, p ≠ U_NULLPTR → U_INTERNAL_ASSERT_POINTER p = true) ∧
  simple TCString = true ∧
  vector_at (mem with_cstring_vector) 100 two_elements ∧
  element_args (mem with_cstring_vector) TCString two_elements = Some two_strings ∧
  Forall simple_arg two_strings ∧
  bindParam U_INTERNAL_ASSERT_POINTER (mkHandler (TVectorPtr TCString) 100)
    with_cstring_vector
  = (push_params (omap param_call_of two_strings) with_cstring_vector, Done ()).
Proof.
  assert (vector_at (mem with_cstring_vector) 100 two_elements) as Hvec.
  { eexists. split; reflexivity. }
  assert (element_args (mem with_cstring_vector) TCString two_elements
          = Some two_strings) as Hrs.
  { reflexivity. }
  assert (Forall simple_arg two_strings) as Hsimple.
  { by repeat constructor. }
  split; [exact debug_macro_accepts|]. split; [reflexivity|].
  split; [exact Hvec|]. split; [exact Hrs|]. split; [exact Hsimple|].
  exact (proj1 (vector_binds_simple_elements U_INTERNAL_ASSERT_POINTER
                  debug_macro_accepts TCString 100 two_elements two_strings
                  with_cstring_vector eq_refl Hvec Hrs Hsimple)).
Defined.

Lemma empty_vector_binds_nothing_witness :
  mem with_empty_vector !! 100%Z = Some (OVector (mkUVector 0 0)) ∧
  _length (mkUVector 0 0) = 0 ∧
  bindParam U_INTERNAL_ASSERT_POINTER
    (mkHandler (TVectorPtr TUString) 100) with_empty_vector
  = (with_empty_vector, Done ()).
Proof.
  split; [reflexivity|]. split; [reflexivity|].
  exact (proj1 (empty_vector_binds_nothing U_INTERNAL_ASSERT_POINTER TUString 100
                  (mkUVector 0 0) with_empty_vector eq_refl eq_refl)).
Defined.

(** ** The primary template *)

(** X18: for a user class, binding an object through the primary template
    runs the class's own [bindParam], respectively [bindResult], member on
    that object and nothing else, provided the object's address passes the
    assertion of the adapter's constructor; on an address that does not, the
    member is not run at all. *)
Theorem primary_template_delegates (assert_pointer : pointer → bool)
    (c : class_methods) (p : pointer) (w : world) :
  bindParam_of assert_pointer (mkArg Lvalue (TClass c) p) w
    = (if assert_pointer p then cls_bindParam c p w else (w, Abort AssertionFailed)) ∧
  bindResult_of assert_pointer (mkArg Lvalue (TClass c) p) w
    = (if assert_pointer p then cls_bindResult c p w else (w, Abort AssertionFailed)).
Proof.
  unfold bindParam_of, bindResult_of, with_temp. rewrite !bind_run.
  cbn [arg_type arg_ref UOrmTypeHandler_ctor]. unfold UOrmTypeHandler_Base.
  destruct (assert_pointer p) eqn:Hp; [|by split].
  cbn [mret M_ret]. rewrite !bind_run.
  unfold bindParam, bindResult, UOrmTypeHandler_bindParam,
    UOrmTypeHandler_bindResult, UOrmTypeHandler_Base_dtor.
  cbn [handler_type pval bindParam_at bindResult_at]. rewrite Hp.
  split.
  - by destruct (cls_bindParam c p w) as [w' [[]|e]].
  - by destruct (cls_bindResult c p w) as [w' [[]|e]].
Qed.
